(** * Octree frustum culling (frustrum_culling.cpp): a shallow embedding

    The development follows the source file function by function:
    [Octree_ctor] is the constructor [Octree::Octree], [BuildTree],
    [IntersectsFrustum], [FrustumCullRecursive] and [FrustumCull] are the
    member functions of the same names.

    Numbers.  [glm::vec3] and [glm::vec4] hold machine floats; here their
    components are exact rationals ([Q]), compared up to [Qeq].  Rounding,
    infinities and NaN are outside this model.  [int] is modelled as [Z]: on
    every run that returns, [depth] does not exceed [maxDepth] and node
    indices stay below the size of [nodes_], so no [int] operation overflows.

    Text of the source that is not C++ is read as what it stands for:
    [2.0 f] as [2.0f], [std::vectorglm::vec4] as a vector of [glm::vec4];
    the line [m::vec3(x * extents.x, y * extents.y, z * extents.z);] between
    the two assignments of the child box is the tail of a repeated
    expression and has no effect.

    Undefined behaviour.  [operator[]] of [std::vector] outside the bounds
    of the vector is undefined behaviour in C++; the embedding makes it an
    explicit outcome, [Undefined].  Recursion is bounded by a fuel argument
    that stands for the call stack; [OutOfFuel] is a run that needs a deeper
    stack than the fuel given. *)

From Stdlib Require Import ZArith QArith Lia Lqa.
From stdpp Require Import base list.

Set Warnings "-register-all".
Local Open Scope Z_scope.

(** ** Vectors and boxes *)

Record vec3 : Type := Vec3 { vx : Q; vy : Q; vz : Q }.

(** A frustum plane [glm::vec4]: the members [x], [y], [z], [w]. *)
Record vec4 : Type := Vec4 { px : Q; py : Q; pz : Q; pw : Q }.

Definition Qltb (a b : Q) : bool := negb (Qle_bool b a).

(** [glm::min(x, y)] is [(y < x) ? y : x], [glm::max(x, y)] is
    [(x < y) ? y : x], both componentwise on vectors. *)
Definition fmin (x y : Q) : Q := if Qltb y x then y else x.
Definition fmax (x y : Q) : Q := if Qltb x y then y else x.

Definition vmin (a b : vec3) : vec3 :=
  Vec3 (fmin (vx a) (vx b)) (fmin (vy a) (vy b)) (fmin (vz a) (vz b)).
Definition vmax (a b : vec3) : vec3 :=
  Vec3 (fmax (vx a) (vx b)) (fmax (vy a) (vy b)) (fmax (vz a) (vz b)).
Definition vadd (a b : vec3) : vec3 :=
  Vec3 (vx a + vx b)%Q (vy a + vy b)%Q (vz a + vz b)%Q.
Definition vsub (a b : vec3) : vec3 :=
  Vec3 (vx a - vx b)%Q (vy a - vy b)%Q (vz a - vz b)%Q.
Definition vdiv (a : vec3) (s : Q) : vec3 :=
  Vec3 (vx a / s)%Q (vy a / s)%Q (vz a / s)%Q.

(** Componentwise comparisons, up to [Qeq]. *)
Definition veq (a b : vec3) : Prop :=
  (vx a == vx b)%Q /\ (vy a == vy b)%Q /\ (vz a == vz b)%Q.
Definition vle (a b : vec3) : Prop :=
  (vx a <= vx b)%Q /\ (vy a <= vy b)%Q /\ (vz a <= vz b)%Q.

(** [struct BoundingBox { glm::vec3 min, max; }]; the members are called
    [bmin] and [bmax] here, [min] and [max] being taken. *)
Record BoundingBox : Type := Box { bmin : vec3; bmax : vec3 }.

Definition bbeq (a b : BoundingBox) : Prop :=
  veq (bmin a) (bmin b) /\ veq (bmax a) (bmax b).

(** [struct OctreeNode].  The declaration in the source has the members
    [boundingBox], [children] and [objects]; [FrustumCullRecursive] also
    reads a member [nodeIndex] of a node, which the declaration lacks.  It
    is an [int] member here.  No statement of the source assigns it, so in
    every node that the source creates ([push_back({})], [resize(8)]) it has
    the value-initialised value 0. *)
Inductive OctreeNode : Type := mkOctreeNode {
  boundingBox : BoundingBox;
  children : list OctreeNode;
  objects : list Z;
  nodeIndex : Z
}.

Definition vzero : vec3 := Vec3 0 0 0.

(** The value-initialised node [OctreeNode{}]. *)
Definition node0 : OctreeNode := mkOctreeNode (Box vzero vzero) [] [] 0.

(** [class Octree]: its two data members. *)
Record Octree : Type := mkOctree {
  nodes_ : list OctreeNode;
  visibleNodes_ : list Z
}.

(** ** Outcomes of a call *)

Inductive outcome (A : Type) : Type :=
| Done (a : A)
| Undefined
| OutOfFuel.
Arguments Done {A} a.
Arguments Undefined {A}.
Arguments OutOfFuel {A}.

Definition bind {A B : Type} (m : outcome A) (k : A -> outcome B) : outcome B :=
  match m with
  | Done a => k a
  | Undefined => Undefined
  | OutOfFuel => OutOfFuel
  end.

Notation "'do' x <- m ; k" := (bind m (fun x => k))
  (at level 10, x name, m at level 100, k at level 200).

(** A range-based [for] whose body may fail: the state is threaded through
    the elements from left to right. *)
Fixpoint for_each {A S : Type} (body : A -> S -> outcome S) (l : list A) (s : S)
  : outcome S :=
  match l with
  | [] => Done s
  | a :: l' => do s' <- body a s; for_each body l' s'
  end.

(** [v[i]] for an [int] index [i]. *)
Definition vec_at {A : Type} (v : list A) (i : Z) : outcome A :=
  if i <? 0 then Undefined
  else match v !! Z.to_nat i with
       | Some a => Done a
       | None => Undefined
       end.

(** [v[i] = a]. *)
Definition vec_set {A : Type} (v : list A) (i : Z) (a : A) : outcome (list A) :=
  do _ <- vec_at v i; Done (<[Z.to_nat i := a]> v).

(** ** Construction *)

Definition set_boundingBox (n : OctreeNode) (bb : BoundingBox) : OctreeNode :=
  mkOctreeNode bb (children n) (objects n) (nodeIndex n).
Definition set_children (n : OctreeNode) (cs : list OctreeNode) : OctreeNode :=
  mkOctreeNode (boundingBox n) cs (objects n) (nodeIndex n).
Definition set_nodes (t : Octree) (ns : list OctreeNode) : Octree :=
  mkOctree ns (visibleNodes_ t).
Definition set_visibleNodes (t : Octree) (vs : list Z) : Octree :=
  mkOctree (nodes_ t) vs.

(** The iterations of the three nested loops of [BuildTree], in the order
    they run: [z] outermost, [x] innermost. *)
Definition octants : list (Z * Z * Z) :=
  flat_map (fun z => flat_map (fun y => map (fun x => (x, y, z)) [0; 1]) [0; 1]) [0; 1].

Definition childIndex (x y z : Z) : Z := x + y * 2 + z * 4.

Definition box_center (bb : BoundingBox) : vec3 := vdiv (vadd (bmin bb) (bmax bb)) 2.
Definition box_extents (bb : BoundingBox) : vec3 := vdiv (vsub (bmax bb) (bmin bb)) 2.

(** [glm::vec3(x * extents.x, y * extents.y, z * extents.z)] *)
Definition octant_offset (extents : vec3) (x y z : Z) : vec3 :=
  Vec3 (inject_Z x * vx extents)%Q (inject_Z y * vy extents)%Q (inject_Z z * vz extents)%Q.

(** The box [childBoundingBox] that one iteration computes. *)
Definition childBoundingBox (center extents : vec3) (x y z : Z) : BoundingBox :=
  Box (vadd (vsub center extents) (octant_offset extents x y z))
      (vadd (vadd center extents) (octant_offset extents x y z)).

(** [nodes_[nodeIndex].children[childIndex].boundingBox = bb]: the write
    through the reference [node]. *)
Definition write_child_box (t : Octree) (nodeIndex childIndex : Z) (bb : BoundingBox)
  : outcome Octree :=
  do node <- vec_at (nodes_ t) nodeIndex;
  do child <- vec_at (children node) childIndex;
  do cs <- vec_set (children node) childIndex (set_boundingBox child bb);
  do ns <- vec_set (nodes_ t) nodeIndex (set_children node cs);
  Done (set_nodes t ns).

(** [Octree::BuildTree].  [maxDepth] is the argument of the constructor,
    which the body names. *)
Fixpoint BuildTree (fuel : nat) (maxDepth : Z) (nodeIndex depth : Z)
  (boundingBox : BoundingBox) (t : Octree) : outcome Octree :=
  match fuel with
  | O => OutOfFuel
  | S fuel' =>
    do node <- vec_at (nodes_ t) nodeIndex;
    do ns <- vec_set (nodes_ t) nodeIndex (set_boundingBox node boundingBox);
    let t := set_nodes t ns in
    if depth =? maxDepth then Done t
    else
      let center := box_center boundingBox in
      let extents := box_extents boundingBox in
      do node <- vec_at (nodes_ t) nodeIndex;
      do ns <- vec_set (nodes_ t) nodeIndex
                 (set_children node (resize 8 node0 (children node)));
      let t := set_nodes t ns in
      for_each (fun '(x, y, z) t =>
                  let childIndex := childIndex x y z in
                  let childBoundingBox := childBoundingBox center extents x y z in
                  do t <- write_child_box t nodeIndex childIndex childBoundingBox;
                  BuildTree fuel' maxDepth (nodeIndex + childIndex) (depth + 1)
                    childBoundingBox t)
               octants t
  end.

(** The loop of the constructor that grows the scene box. *)
Definition grow (bb : BoundingBox) (vertex : vec3) : BoundingBox :=
  Box (vmin (bmin bb) vertex) (vmax (bmax bb) vertex).

Definition sceneBoundingBox (v0 : vec3) (vertices : list vec3) : BoundingBox :=
  fold_left grow vertices (Box v0 v0).

(** [Octree::Octree]. *)
Definition Octree_ctor (fuel : nat) (vertices : list vec3) (maxDepth : Z)
  : outcome Octree :=
  do v0 <- vec_at vertices 0;
  let bb := sceneBoundingBox v0 vertices in
  let t := mkOctree ([] ++ [node0]) [] in
  BuildTree fuel maxDepth 0 0 bb t.

(** ** Culling *)

(** The six comparisons that [IntersectsFrustum] adds up for one plane. *)
Definition plane_out (bb : BoundingBox) (plane : vec4) : Z :=
  let t (q : Q) : Z := if Qltb 0 q then 1 else 0 in
  0 + t (px plane * vx (bmin bb) + pw plane)%Q
    + t (px plane * vx (bmax bb) + pw plane)%Q
    + t (py plane * vy (bmin bb) + pw plane)%Q
    + t (py plane * vy (bmax bb) + pw plane)%Q
    + t (pz plane * vz (bmin bb) + pw plane)%Q
    + t (pz plane * vz (bmax bb) + pw plane)%Q.

(** [Octree::IntersectsFrustum] *)
Fixpoint IntersectsFrustum (boundingBox : BoundingBox) (frustumPlanes : list vec4) : bool :=
  match frustumPlanes with
  | [] => true
  | plane :: rest =>
    if plane_out boundingBox plane =? 6 then false
    else IntersectsFrustum boundingBox rest
  end.

(** [Octree::FrustumCullRecursive] *)
Fixpoint FrustumCullRecursive (fuel : nat) (nodeIndex' : Z) (frustumPlanes : list vec4)
  (t : Octree) : outcome Octree :=
  match fuel with
  | O => OutOfFuel
  | S fuel' =>
    do node <- vec_at (nodes_ t) nodeIndex';
    if negb (IntersectsFrustum (boundingBox node) frustumPlanes) then Done t
    else
      let t := set_visibleNodes t (visibleNodes_ t ++ [nodeIndex']) in
      for_each (fun child t => FrustumCullRecursive fuel' (nodeIndex child) frustumPlanes t)
               (children node) t
  end.

(** [Octree::FrustumCull] *)
Definition FrustumCull (fuel : nat) (frustumPlanes : list vec4) (t : Octree)
  : outcome Octree :=
  let t := set_visibleNodes t [] in
  FrustumCullRecursive fuel 0 frustumPlanes t.

(** ** Test data *)

Definition v (a b c : Q) : vec3 := Vec3 a b c.

Definition unit_cube : list vec3 :=
  [v 0 0 0; v 1 0 0; v 0 1 0; v 1 1 0; v 0 0 1; v 1 0 1; v 0 1 1; v 1 1 1].

(** ** The body of the loop of [BuildTree] *)

(** The body of the loop of [BuildTree] for a node whose box is [bb]. *)
Definition build_child (fuel : nat) (maxDepth nodeIndex depth : Z) (bb : BoundingBox)
  (xyz : Z * Z * Z) (t : Octree) : outcome Octree :=
  let '(x, y, z) := xyz in
  let cbb := childBoundingBox (box_center bb) (box_extents bb) x y z in
  do t <- write_child_box t nodeIndex (childIndex x y z) cbb;
  BuildTree fuel maxDepth (nodeIndex + childIndex x y z) (depth + 1) cbb t.

(** ** Points in boxes *)

(** [min <= p <= max] componentwise. *)
Definition contains (bb : BoundingBox) (p : vec3) : Prop :=
  vle (bmin bb) p /\ vle p (bmax bb).

(** ** Built indexes *)

(** The one-node index: the root holds the scene box and has no children. *)
Definition root_only (bb : BoundingBox) : Octree :=
  mkOctree [mkOctreeNode bb [] [] 0] [].

(** An index is built when some call of the constructor returns it. *)
Definition built (t : Octree) : Prop :=
  exists fuel vertices maxDepth, Octree_ctor fuel vertices maxDepth = Done t.

(** ** The list one traversal appends *)

(** The results of the calls on the elements of a vector, one after the
    other, joined. *)
Fixpoint collect {A : Type} (f : A -> outcome (list Z)) (l : list A) : outcome (list Z) :=
  match l with
  | [] => Done []
  | a :: l' => do seg <- f a; do segs <- collect f l'; Done (seg ++ segs)
  end.

(** The node indices that [FrustumCullRecursive] pushes, as a function of
    the arena alone: nothing for a node that fails the test, otherwise the
    node and then what the calls on its children push, child by child. *)
Fixpoint visit (fuel : nat) (ns : list OctreeNode) (planes : list vec4) (i : Z)
  : outcome (list Z) :=
  match fuel with
  | O => OutOfFuel
  | S fuel' =>
    do node <- vec_at ns i;
    if IntersectsFrustum (boundingBox node) planes
    then do segs <- collect (fun c => visit fuel' ns planes (nodeIndex c)) (children node);
         Done (i :: segs)
    else Done []
  end.

(** [push_back] of every element of [l]. *)
Definition push_all (t : Octree) (l : list Z) : Octree :=
  set_visibleNodes t (visibleNodes_ t ++ l).

(** ** Pre-order *)

(** [preorder ns planes i l]: [l] lists, in pre-order, the nodes that pass
    the test and are reached from node [i] through nodes that pass it.  A
    node that passes comes first; the lists of its children follow, in the
    order of the vector [children]. *)
Inductive preorder (ns : list OctreeNode) (planes : list vec4) : Z -> list Z -> Prop :=
| preorder_discarded (i : Z) (node : OctreeNode) :
    0 <= i -> ns !! Z.to_nat i = Some node ->
    IntersectsFrustum (boundingBox node) planes = false ->
    preorder ns planes i []
| preorder_visible (i : Z) (node : OctreeNode) (segs : list (list Z)) :
    0 <= i -> ns !! Z.to_nat i = Some node ->
    IntersectsFrustum (boundingBox node) planes = true ->
    Forall2 (fun child seg => preorder ns planes (nodeIndex child) seg)
            (children node) segs ->
    preorder ns planes i (i :: concat segs).

(** ** Parents, descendants and paths in the arena *)

(** Node [m] is named by an element of [children] of node [n]. *)
Definition child_of (ns : list OctreeNode) (n m : Z) : Prop :=
  exists node c,
    0 <= n /\ ns !! Z.to_nat n = Some node /\ c ∈ children node /\ nodeIndex c = m.

(** The culling test accepts node [n]. *)
Definition passes (ns : list OctreeNode) (planes : list vec4) (n : Z) : Prop :=
  exists node,
    0 <= n /\ ns !! Z.to_nat n = Some node /\
    IntersectsFrustum (boundingBox node) planes = true.

(** The culling test rejects node [n]. *)
Definition discarded (ns : list OctreeNode) (planes : list vec4) (n : Z) : Prop :=
  exists node,
    0 <= n /\ ns !! Z.to_nat n = Some node /\
    IntersectsFrustum (boundingBox node) planes = false.

(** A path from [r] along [child_of] on which every node passes the test. *)
Inductive vis_path (ns : list OctreeNode) (planes : list vec4) (r : Z) : Z -> Prop :=
| vis_path_here : passes ns planes r -> vis_path ns planes r r
| vis_path_step (n m : Z) :
    vis_path ns planes r n -> child_of ns n m -> passes ns planes m ->
    vis_path ns planes r m.

(** The descendants of [n]: its children, their children, and so on. *)
Inductive descendant (ns : list OctreeNode) (n : Z) : Z -> Prop :=
| descendant_child (m : Z) : child_of ns n m -> descendant ns n m
| descendant_step (m d : Z) :
    descendant ns n m -> child_of ns m d -> descendant ns n d.

(** Tree shape of an arena rooted at index 0: a node has at most one parent,
    the root has none. *)
Definition tree_shaped (ns : list OctreeNode) : Prop :=
  (forall a b m, child_of ns a m -> child_of ns b m -> a = b) /\
  (forall a, ~ child_of ns a 0).

(** ** What the spec says, in its words *)

(** The eight corners of a box. *)
Definition corners (bb : BoundingBox) : list vec3 :=
  x ← [vx (bmin bb); vx (bmax bb)];
  y ← [vy (bmin bb); vy (bmax bb)];
  z ← [vz (bmin bb); vz (bmax bb)];
  [Vec3 x y z].

(** The plane equation at a point: [normal . p + offset]; a point is inside
    when it is positive, strictly outside when it is negative. *)
Definition plane_eq (plane : vec4) (p : vec3) : Q :=
  (px plane * vx p + py plane * vy p + pz plane * vz p + pw plane)%Q.

Definition strictly_outside (plane : vec4) (p : vec3) : bool := Qltb (plane_eq plane p) 0.

(** All eight corners lie strictly outside one of the planes. *)
Definition fully_outside (bb : BoundingBox) (planes : list vec4) : bool :=
  existsb (fun plane => forallb (strictly_outside plane) (corners bb)) planes.

(** The same with the other orientation of the planes: a corner is outside
    when the plane equation is positive there. *)
Definition fully_outside_positive (bb : BoundingBox) (planes : list vec4) : bool :=
  existsb (fun plane => forallb (fun p => Qltb 0 (plane_eq plane p)) (corners bb)) planes.


(** A point in the open interior of a box. *)
Definition interior (bb : BoundingBox) (p : vec3) : Prop :=
  (vx (bmin bb) < vx p < vx (bmax bb))%Q /\
  (vy (bmin bb) < vy p < vy (bmax bb))%Q /\
  (vz (bmin bb) < vz p < vz (bmax bb))%Q.

(** ** More test data *)

(** A child entry that refers to the arena element [i]. *)
Definition ref (i : Z) : OctreeNode := mkOctreeNode (Box vzero vzero) [] [] i.

(** A four-node arena: the root 0 has the children 1 and 2, node 1 has the
    child 3. *)
Definition arena4 : Octree :=
  mkOctree
    [ mkOctreeNode (Box (v (-1) (-1) (-1)) (v 1 1 1)) [ref 1; ref 2] [] 0;
      mkOctreeNode (Box (v (1#2) (1#2) (1#2)) (v 1 1 1)) [ref 3] [] 1;
      mkOctreeNode (Box (v (-1) (-1) (-1)) (v 0 0 0)) [] [] 2;
      mkOctreeNode (Box (v (-1) (-1) (-1)) (v 1 1 1)) [] [] 3 ]
    [7; 7].

Definition six (plane : vec4) : list vec4 := replicate 6 plane.

Definition diagonal_planes : list vec4 := six (Vec4 1 1 1 0).

Definition unit_box : BoundingBox := Box (v 0 0 0) (v 1 1 1).

(** ** More about boxes and planes *)

(** [min <= max] componentwise. *)
Definition wellformed (bb : BoundingBox) : Prop := vle (bmin bb) (bmax bb).

(** The two extreme corners of [inner] lie in [outer]. *)
Definition box_within (inner outer : BoundingBox) : Prop :=
  contains outer (bmin inner) /\ contains outer (bmax inner).




(** An arena of [n] value-initialised nodes. *)
Definition blank_arena (n : nat) : Octree := mkOctree (replicate n node0) [].

(** What a call of [BuildTree] on node [i] leaves as it was, from the state
    [t] before to the state [s] after: the size of [nodes_], the visible
    list, every node below [i], and the members [objects] and [nodeIndex]
    of every node of the arena. *)
Definition kept (i : Z) (t s : Octree) : Prop :=
  length (nodes_ s) = length (nodes_ t) /\
  visibleNodes_ s = visibleNodes_ t /\
  (forall j, (j < Z.to_nat i)%nat -> nodes_ s !! j = nodes_ t !! j) /\
  objects <$> nodes_ s = objects <$> nodes_ t /\
  nodeIndex <$> nodes_ s = nodeIndex <$> nodes_ t.

(** Node [d] is [n] or one of its descendants. *)
Definition reaches (ns : list OctreeNode) (n d : Z) : Prop := n = d \/ descendant ns n d.

(** No node names the same node twice among its children. *)
Definition distinct_children (ns : list OctreeNode) : Prop :=
  forall (i : nat) (node : OctreeNode),
    ns !! i = Some node -> NoDup (nodeIndex <$> children node).

(** * Lemmas *)

(** ** Outcomes, vectors and loops *)

Lemma bind_Done {A B : Type} (m : outcome A) (k : A -> outcome B) (b : B) :
  bind m k = Done b <-> exists a, m = Done a /\ k a = Done b.
Proof.
  destruct m as [a| |]; simpl; split.
  - intros H; exists a; auto.
  - intros (a' & Ha & Hk); injection Ha as ->; exact Hk.
  - discriminate.
  - intros (a' & Ha & _); discriminate.
  - discriminate.
  - intros (a' & Ha & _); discriminate.
Qed.

Lemma vec_at_Done {A : Type} (l : list A) (i : Z) (a : A) :
  vec_at l i = Done a <-> 0 <= i /\ l !! Z.to_nat i = Some a.
Proof.
  unfold vec_at. destruct (Z.ltb_spec i 0) as [Hneg|Hpos].
  - split; [discriminate | intros [? _]; lia].
  - destruct (l !! Z.to_nat i) as [a'|]; split.
    + intros [= ->]; auto.
    + intros [_ [= ->]]; reflexivity.
    + discriminate.
    + intros [_ ?]; discriminate.
Qed.

Lemma vec_at_out_of_bounds {A : Type} (l : list A) (i : Z) :
  i < 0 \/ Z.of_nat (length l) <= i -> vec_at l i = Undefined.
Proof.
  unfold vec_at. intros H. destruct (Z.ltb_spec i 0); [reflexivity|].
  rewrite lookup_ge_None_2; [reflexivity | lia].
Qed.

Lemma vec_at_cases {A : Type} (l : list A) (i : Z) :
  (exists a, vec_at l i = Done a) \/ vec_at l i = Undefined.
Proof.
  unfold vec_at. destruct (i <? 0); [right; reflexivity|].
  destruct (l !! Z.to_nat i) as [a|]; [left; exists a|right]; reflexivity.
Qed.

Lemma vec_set_Done {A : Type} (l l' : list A) (i : Z) (a : A) :
  vec_set l i a = Done l' <->
  0 <= i /\ (Z.to_nat i < length l)%nat /\ l' = <[Z.to_nat i := a]> l.
Proof.
  unfold vec_set. rewrite bind_Done. split.
  - intros (a0 & Hat & [= <-]). apply vec_at_Done in Hat as [Hi Hl].
    apply lookup_lt_Some in Hl. auto.
  - intros (Hi & Hl & ->). apply lookup_lt_is_Some_2 in Hl as [a0 Ha0].
    exists a0. split; [apply vec_at_Done; auto | reflexivity].
Qed.

Lemma for_each_ext {A S : Type} (f g : A -> S -> outcome S) (l : list A) (s : S) :
  (forall a s', a ∈ l -> f a s' = g a s') -> for_each f l s = for_each g l s.
Proof.
  revert s. induction l as [|a l IH]; intros s Hfg; simpl; [reflexivity|].
  rewrite Hfg by left. destruct (g a s) as [s'| |]; simpl; try reflexivity.
  apply IH. intros b s'' Hb. apply Hfg. right; exact Hb.
Qed.

(** A loop keeps what each of its iterations keeps. *)
Lemma for_each_invariant {A S : Type} (P : S -> Prop) (body : A -> S -> outcome S)
  (l : list A) :
  (forall a s s', a ∈ l -> P s -> body a s = Done s' -> P s') ->
  forall s s', P s -> for_each body l s = Done s' -> P s'.
Proof.
  induction l as [|a l IH]; intros Hbody s s' HP; simpl.
  - intros [= <-]; exact HP.
  - rewrite bind_Done. intros (s1 & H1 & H2).
    eapply IH; [| |exact H2].
    + intros b u u' Hb. apply Hbody. right; exact Hb.
    + eapply Hbody; [left | exact HP | exact H1].
Qed.

(** ** Construction: what one call of [BuildTree] does *)

Lemma write_child_box_Done (t t' : Octree) (i c : Z) (bb : BoundingBox) :
  write_child_box t i c bb = Done t' <->
  exists node child,
    0 <= i /\ nodes_ t !! Z.to_nat i = Some node /\
    0 <= c /\ children node !! Z.to_nat c = Some child /\
    t' = set_nodes t
           (<[Z.to_nat i :=
                set_children node
                  (<[Z.to_nat c := set_boundingBox child bb]> (children node))]>
              (nodes_ t)).
Proof.
  unfold write_child_box. split.
  - intros H.
    apply bind_Done in H as (node & Hn & H). apply bind_Done in H as (child & Hc & H).
    apply bind_Done in H as (cs & Hcs & H). apply bind_Done in H as (ns & Hns & H).
    injection H as <-.
    apply vec_at_Done in Hn as [Hi Hn]. apply vec_at_Done in Hc as [Hc0 Hc].
    apply vec_set_Done in Hcs as (_ & _ & ->). apply vec_set_Done in Hns as (_ & _ & ->).
    exists node, child. auto.
  - intros (node & child & Hi & Hn & Hc0 & Hc & ->).
    apply bind_Done. exists node. split; [apply vec_at_Done; auto|].
    apply bind_Done. exists child. split; [apply vec_at_Done; auto|].
    apply bind_Done. eexists. split.
    { apply vec_set_Done. split; [exact Hc0|]. split; [|reflexivity].
      apply lookup_lt_Some in Hc. exact Hc. }
    apply bind_Done. eexists. split; [|reflexivity].
    apply vec_set_Done. split; [exact Hi|]. split; [|reflexivity].
    apply lookup_lt_Some in Hn. exact Hn.
Qed.

Lemma write_child_box_frame (t t' : Octree) (i c : Z) (bb : BoundingBox) :
  write_child_box t i c bb = Done t' ->
  length (nodes_ t') = length (nodes_ t) /\ visibleNodes_ t' = visibleNodes_ t.
Proof.
  intros H. apply write_child_box_Done in H as (node & child & _ & _ & _ & _ & ->).
  simpl. rewrite length_insert. auto.
Qed.

(** One call of [BuildTree] on a node that exists. *)
Lemma BuildTree_step (fuel : nat) (maxDepth i depth : Z) (bb : BoundingBox)
  (t : Octree) (node : OctreeNode) :
  0 <= i -> nodes_ t !! Z.to_nat i = Some node ->
  BuildTree (S fuel) maxDepth i depth bb t =
  if depth =? maxDepth
  then Done (set_nodes t (<[Z.to_nat i := set_boundingBox node bb]> (nodes_ t)))
  else for_each (build_child fuel maxDepth i depth bb) octants
         (set_nodes t
            (<[Z.to_nat i :=
                 mkOctreeNode bb (resize 8 node0 (children node)) (objects node)
                   (nodeIndex node)]> (nodes_ t))).
Proof.
  intros Hi Hn. pose proof (lookup_lt_Some _ _ _ Hn) as Hlt.
  assert (Hat : vec_at (nodes_ t) i = Done node) by (apply vec_at_Done; auto).
  cbn [BuildTree]. rewrite Hat. cbn [bind].
  assert (Hset : forall a, vec_set (nodes_ t) i a = Done (<[Z.to_nat i := a]> (nodes_ t))).
  { intros a. apply vec_set_Done. auto. }
  rewrite Hset. cbn [bind set_nodes nodes_]. destruct (depth =? maxDepth); [reflexivity|].
  assert (Hat' : vec_at (<[Z.to_nat i := set_boundingBox node bb]> (nodes_ t)) i
                 = Done (set_boundingBox node bb)).
  { apply vec_at_Done. split; [exact Hi|]. apply list_lookup_insert_eq. exact Hlt. }
  rewrite Hat'. cbn [bind].
  assert (Hset' : forall a,
             vec_set (<[Z.to_nat i := set_boundingBox node bb]> (nodes_ t)) i a
             = Done (<[Z.to_nat i := a]> (nodes_ t))).
  { intros a. apply vec_set_Done. split; [exact Hi|].
    rewrite length_insert. split; [exact Hlt|]. rewrite list_insert_insert_eq. reflexivity. }
  rewrite Hset'. cbn [bind set_nodes visibleNodes_].
  apply for_each_ext. intros [[x y] z] s _. reflexivity.
Qed.

Lemma BuildTree_missing_node (fuel : nat) (maxDepth i depth : Z) (bb : BoundingBox)
  (t : Octree) :
  i < 0 \/ Z.of_nat (length (nodes_ t)) <= i ->
  BuildTree (S fuel) maxDepth i depth bb t = Undefined.
Proof.
  intros H. cbn [BuildTree]. rewrite vec_at_out_of_bounds by exact H. reflexivity.
Qed.

(** [BuildTree] never changes the size of [nodes_], nor [visibleNodes_]. *)
Lemma BuildTree_frame (fuel : nat) (maxDepth : Z) :
  forall (i depth : Z) (bb : BoundingBox) (t t' : Octree),
    BuildTree fuel maxDepth i depth bb t = Done t' ->
    length (nodes_ t') = length (nodes_ t) /\ visibleNodes_ t' = visibleNodes_ t.
Proof.
  induction fuel as [|fuel IH]; intros i depth bb t t' H; [discriminate|].
  destruct (vec_at_cases (nodes_ t) i) as [[node Hn]|Hu].
  - apply vec_at_Done in Hn as [Hi Hn].
    rewrite (BuildTree_step _ _ _ _ _ _ _ Hi Hn) in H.
    destruct (depth =? maxDepth).
    + injection H as <-. simpl. rewrite length_insert. auto.
    + revert H.
      apply (for_each_invariant
               (fun s => length (nodes_ s) = length (nodes_ t)
                         /\ visibleNodes_ s = visibleNodes_ t)).
      * intros [[x y] z] s s' _ [Hl Hv] Hb. unfold build_child in Hb.
        apply bind_Done in Hb as (s1 & Hw & Hb).
        apply write_child_box_frame in Hw as [Hl1 Hv1].
        apply IH in Hb as [Hl2 Hv2]. split; congruence.
      * simpl. rewrite length_insert. auto.
  - cbn [BuildTree] in H. rewrite Hu in H. discriminate.
Qed.

(** ** Construction: the arena has one element *)

Lemma octants_eq :
  octants =
  [(0, 0, 0); (1, 0, 0); (0, 1, 0); (1, 1, 0); (0, 0, 1); (1, 0, 1); (0, 1, 1); (1, 1, 1)].
Proof. reflexivity. Qed.

Lemma one_node_index {A : Type} (l : list A) (i : Z) (a : A) :
  length l = 1%nat -> 0 <= i -> l !! Z.to_nat i = Some a -> i = 0.
Proof.
  intros Hl Hi Ha. apply lookup_lt_Some in Ha. lia.
Qed.

(** With one element in [nodes_], a call of [BuildTree] above the leaf depth
    does not return: after the child with index 0, which is the node itself,
    the child with index 1 is looked up at [nodes_[nodeIndex + 1]]. *)
Lemma BuildTree_one_node_not_Done (fuel : nat) (maxDepth i depth : Z)
  (bb : BoundingBox) (t t' : Octree) :
  length (nodes_ t) = 1%nat -> depth <> maxDepth ->
  BuildTree fuel maxDepth i depth bb t <> Done t'.
Proof.
  intros Hlen Hd H. destruct fuel as [|fuel]; [discriminate|].
  destruct (vec_at_cases (nodes_ t) i) as [[node Hn]|Hu].
  2:{ cbn [BuildTree] in H. rewrite Hu in H. discriminate. }
  apply vec_at_Done in Hn as [Hi Hn].
  rewrite (BuildTree_step _ _ _ _ _ _ _ Hi Hn) in H.
  apply Z.eqb_neq in Hd. rewrite Hd in H.
  pose proof (one_node_index _ _ _ Hlen Hi Hn) as ->.
  rewrite octants_eq in H. cbn [for_each] in H.
  apply bind_Done in H as (s1 & H1 & H). apply bind_Done in H as (s2 & H2 & _).
  unfold build_child in H1, H2.
  apply bind_Done in H1 as (u1 & Hw1 & Hb1). apply bind_Done in H2 as (u2 & Hw2 & Hb2).
  apply write_child_box_frame in Hw1 as [Hl1 _]. apply BuildTree_frame in Hb1 as [Hl2 _].
  apply write_child_box_frame in Hw2 as [Hl3 _].
  cbn [set_nodes nodes_] in Hl1. rewrite length_insert in Hl1.
  destruct fuel as [|fuel]; [discriminate|].
  rewrite BuildTree_missing_node in Hb2; [discriminate|].
  right. unfold childIndex. lia.
Qed.

(** With enough fuel the failing access is reached. *)
Lemma BuildTree_one_node_Undefined (n : nat) :
  forall (fuel : nat) (maxDepth depth : Z) (bb : BoundingBox) (t : Octree),
    maxDepth - depth = Z.of_nat (S n) -> (S n < fuel)%nat ->
    length (nodes_ t) = 1%nat ->
    BuildTree fuel maxDepth 0 depth bb t = Undefined.
Proof.
  induction n as [|n IH]; intros fuel maxDepth depth bb t Hd Hf Hlen.
  - destruct fuel as [|[|fuel]]; [lia|lia|].
    destruct t as [[|node [|]] vis]; try discriminate Hlen.
    rewrite (BuildTree_step _ _ _ _ _ _ node); [|lia|reflexivity].
    replace (depth =? maxDepth) with false by (symmetry; apply Z.eqb_neq; lia).
    cbn [set_nodes nodes_ visibleNodes_ Z.to_nat insert list_insert].
    set (cs := resize 8 node0 (children node)).
    assert (Hcs : length cs = 8%nat) by apply length_resize.
    destruct cs as [|c0 [|c1 cs']]; try discriminate Hcs.
    rewrite octants_eq. cbn [for_each build_child].
    set (b0 := childBoundingBox _ _ 0 0 0). set (b1 := childBoundingBox _ _ 1 0 0).
    replace (write_child_box _ 0 (childIndex 0 0 0) b0) with
      (Done (mkOctree [mkOctreeNode bb (set_boundingBox c0 b0 :: c1 :: cs') (objects node)
                         (nodeIndex node)] vis)) by reflexivity.
    cbn [bind].
    rewrite (BuildTree_step _ _ _ _ _ _
               (mkOctreeNode bb (set_boundingBox c0 b0 :: c1 :: cs') (objects node)
                  (nodeIndex node))); [|unfold childIndex; lia|reflexivity].
    replace (depth + 1 =? maxDepth) with true by (symmetry; apply Z.eqb_eq; lia).
    cbn [bind].
    replace (write_child_box _ 0 (childIndex 1 0 0) b1) with
      (Done (mkOctree [mkOctreeNode b0 (set_boundingBox c0 b0 :: set_boundingBox c1 b1 :: cs')
                         (objects node) (nodeIndex node)] vis)) by reflexivity.
    cbn [bind]. rewrite BuildTree_missing_node; [reflexivity|].
    right. cbn [nodes_ length]. unfold childIndex. lia.
  - destruct fuel as [|fuel]; [lia|].
    destruct t as [[|node [|]] vis]; try discriminate Hlen.
    rewrite (BuildTree_step _ _ _ _ _ _ node); [|lia|reflexivity].
    replace (depth =? maxDepth) with false by (symmetry; apply Z.eqb_neq; lia).
    cbn [set_nodes nodes_ visibleNodes_ Z.to_nat insert list_insert].
    set (cs := resize 8 node0 (children node)).
    assert (Hcs : length cs = 8%nat) by apply length_resize.
    destruct cs as [|c0 cs']; try discriminate Hcs.
    rewrite octants_eq. cbn [for_each build_child].
    set (b0 := childBoundingBox _ _ 0 0 0).
    replace (write_child_box _ 0 (childIndex 0 0 0) b0) with
      (Done (mkOctree [mkOctreeNode bb (set_boundingBox c0 b0 :: cs') (objects node)
                         (nodeIndex node)] vis)) by reflexivity.
    cbn [bind]. change (0 + childIndex 0 0 0) with 0.
    rewrite IH; [reflexivity|lia|lia|reflexivity].
Qed.

(** ** The scene box *)

Lemma fmin_spec (x y : Q) : (fmin x y <= x)%Q /\ (fmin x y <= y)%Q.
Proof.
  unfold fmin, Qltb. destruct (Qle_bool x y) eqn:E; simpl.
  - apply Qle_bool_iff in E. split; [apply Qle_refl | exact E].
  - assert (y < x)%Q as Hlt.
    { apply Qnot_le_lt. intros Hle. apply Qle_bool_iff in Hle. congruence. }
    split; [apply Qlt_le_weak; exact Hlt | apply Qle_refl].
Qed.

Lemma fmax_spec (x y : Q) : (x <= fmax x y)%Q /\ (y <= fmax x y)%Q.
Proof.
  unfold fmax, Qltb. destruct (Qle_bool y x) eqn:E; simpl.
  - apply Qle_bool_iff in E. split; [apply Qle_refl | exact E].
  - assert (x < y)%Q as Hlt.
    { apply Qnot_le_lt. intros Hle. apply Qle_bool_iff in Hle. congruence. }
    split; [apply Qlt_le_weak; exact Hlt | apply Qle_refl].
Qed.

Lemma grow_contains_vertex (bb : BoundingBox) (p : vec3) : contains (grow bb p) p.
Proof.
  unfold contains, vle, grow; simpl.
  repeat split; solve [apply fmin_spec | apply fmax_spec].
Qed.

Lemma grow_keeps (bb : BoundingBox) (p q : vec3) :
  contains bb q -> contains (grow bb p) q.
Proof.
  unfold contains, vle, grow; simpl.
  intros [(H1 & H2 & H3) (H4 & H5 & H6)].
  repeat split.
  - eapply Qle_trans; [exact (proj1 (fmin_spec _ _)) | exact H1].
  - eapply Qle_trans; [exact (proj1 (fmin_spec _ _)) | exact H2].
  - eapply Qle_trans; [exact (proj1 (fmin_spec _ _)) | exact H3].
  - eapply Qle_trans; [exact H4 | exact (proj1 (fmax_spec _ _))].
  - eapply Qle_trans; [exact H5 | exact (proj1 (fmax_spec _ _))].
  - eapply Qle_trans; [exact H6 | exact (proj1 (fmax_spec _ _))].
Qed.

Lemma fold_grow_keeps (l : list vec3) :
  forall (bb : BoundingBox) (q : vec3),
    contains bb q -> contains (fold_left grow l bb) q.
Proof.
  induction l as [|p l IH]; intros bb q H; simpl; [exact H|].
  apply IH, grow_keeps, H.
Qed.

Lemma fold_grow_contains (l : list vec3) :
  forall (bb : BoundingBox) (p : vec3),
    p ∈ l -> contains (fold_left grow l bb) p.
Proof.
  induction l as [|q l IH]; intros bb p Hp; [inversion Hp|].
  simpl. apply elem_of_cons in Hp as [->|Hp].
  - apply fold_grow_keeps, grow_contains_vertex.
  - apply IH, Hp.
Qed.

(** The box that the constructor hands to [BuildTree] contains every vertex. *)
Lemma sceneBoundingBox_contains (v0 : vec3) (vertices : list vec3) (p : vec3) :
  p ∈ vertices -> contains (sceneBoundingBox v0 vertices) p.
Proof. apply fold_grow_contains. Qed.

(** ** What the constructor returns *)

Lemma Octree_ctor_empty (fuel : nat) (maxDepth : Z) :
  Octree_ctor fuel [] maxDepth = Undefined.
Proof. reflexivity. Qed.

Lemma Octree_ctor_cons (fuel : nat) (v0 : vec3) (rest : list vec3) (maxDepth : Z) :
  Octree_ctor fuel (v0 :: rest) maxDepth =
  BuildTree fuel maxDepth 0 0 (sceneBoundingBox v0 (v0 :: rest)) (mkOctree [node0] []).
Proof. reflexivity. Qed.

Lemma Octree_ctor_depth0 (fuel : nat) (v0 : vec3) (rest : list vec3) :
  Octree_ctor (S fuel) (v0 :: rest) 0 =
  Done (root_only (sceneBoundingBox v0 (v0 :: rest))).
Proof.
  rewrite Octree_ctor_cons.
  rewrite (BuildTree_step _ _ _ _ _ _ node0); [reflexivity|lia|reflexivity].
Qed.

(** Every index that the constructor returns is a one-node index, built from
    a non-empty vertex list with [maxDepth = 0]. *)
Lemma Octree_ctor_Done_inv (fuel : nat) (vertices : list vec3) (maxDepth : Z)
  (t : Octree) :
  Octree_ctor fuel vertices maxDepth = Done t ->
  maxDepth = 0 /\
  exists v0 rest, vertices = v0 :: rest /\ t = root_only (sceneBoundingBox v0 vertices).
Proof.
  intros H. destruct vertices as [|v0 rest]; [discriminate|].
  destruct (Z.eq_dec maxDepth 0) as [->|Hd].
  - split; [reflexivity|]. exists v0, rest. split; [reflexivity|].
    destruct fuel as [|fuel]; [discriminate|].
    rewrite Octree_ctor_depth0 in H. injection H as <-. reflexivity.
  - rewrite Octree_ctor_cons in H. exfalso.
    eapply BuildTree_one_node_not_Done; [| |exact H]; [reflexivity|lia].
Qed.

Lemma Octree_ctor_deep_Undefined (fuel : nat) (v0 : vec3) (rest : list vec3)
  (maxDepth : Z) :
  1 <= maxDepth -> (Z.to_nat maxDepth < fuel)%nat ->
  Octree_ctor fuel (v0 :: rest) maxDepth = Undefined.
Proof.
  intros Hd Hf. rewrite Octree_ctor_cons.
  apply (BuildTree_one_node_Undefined (Z.to_nat maxDepth - 1)); [lia|lia|reflexivity].
Qed.

Lemma built_root_only (t : Octree) :
  built t -> exists bb, t = root_only bb.
Proof.
  intros (fuel & vertices & maxDepth & H).
  apply Octree_ctor_Done_inv in H as (_ & v0 & rest & _ & ->). eauto.
Qed.

(** ** Culling: the list one traversal appends *)

Lemma push_all_nil (t : Octree) : push_all t [] = t.
Proof. destruct t as [ns vs]. unfold push_all, set_visibleNodes. simpl. rewrite app_nil_r. reflexivity. Qed.

Lemma push_all_app (t : Octree) (l1 l2 : list Z) :
  push_all (push_all t l1) l2 = push_all t (l1 ++ l2).
Proof. unfold push_all, set_visibleNodes. simpl. rewrite app_assoc. reflexivity. Qed.

Lemma for_each_collect {A : Type} (body : A -> Octree -> outcome Octree)
  (f : list OctreeNode -> A -> outcome (list Z)) (l : list A) :
  (forall a t, a ∈ l -> body a t = do seg <- f (nodes_ t) a; Done (push_all t seg)) ->
  forall t, for_each body l t = do segs <- collect (f (nodes_ t)) l; Done (push_all t segs).
Proof.
  induction l as [|a l IH]; intros Hbody t; simpl.
  - rewrite push_all_nil. reflexivity.
  - rewrite Hbody by left. destruct (f (nodes_ t) a) as [seg| |]; simpl; try reflexivity.
    rewrite IH by (intros b u Hb; apply Hbody; right; exact Hb). simpl.
    destruct (collect (f (nodes_ t)) l) as [segs| |]; simpl; try reflexivity.
    rewrite push_all_app. reflexivity.
Qed.

(** [FrustumCullRecursive] appends [visit] to [visibleNodes_] and changes
    nothing else; it fails exactly when [visit] does. *)
Lemma FrustumCullRecursive_visit (fuel : nat) (planes : list vec4) :
  forall (i : Z) (t : Octree),
    FrustumCullRecursive fuel i planes t =
    do l <- visit fuel (nodes_ t) planes i; Done (push_all t l).
Proof.
  induction fuel as [|fuel IH]; intros i t; [reflexivity|].
  cbn [FrustumCullRecursive visit].
  destruct (vec_at (nodes_ t) i) as [node| |]; cbn [bind]; try reflexivity.
  destruct (IntersectsFrustum (boundingBox node) planes); cbn [negb bind].
  2:{ rewrite push_all_nil. reflexivity. }
  rewrite (for_each_collect _ (fun ns c => visit fuel ns planes (nodeIndex c))).
  2:{ intros c u _. apply IH. }
  cbn [set_visibleNodes nodes_].
  destruct (collect _ (children node)) as [segs| |]; cbn [bind]; try reflexivity.
  f_equal. unfold push_all, set_visibleNodes. cbn [nodes_ visibleNodes_].
  rewrite <- app_assoc. reflexivity.
Qed.

Lemma FrustumCull_visit (fuel : nat) (planes : list vec4) (t : Octree) :
  FrustumCull fuel planes t =
  do l <- visit fuel (nodes_ t) planes 0; Done (mkOctree (nodes_ t) l).
Proof.
  unfold FrustumCull. rewrite FrustumCullRecursive_visit. reflexivity.
Qed.

Lemma FrustumCull_Done (fuel : nat) (planes : list vec4) (t t' : Octree) :
  FrustumCull fuel planes t = Done t' <->
  exists l, visit fuel (nodes_ t) planes 0 = Done l /\ t' = mkOctree (nodes_ t) l.
Proof.
  rewrite FrustumCull_visit, bind_Done. split.
  - intros (l & Hl & [= <-]). eauto.
  - intros (l & Hl & ->). eauto.
Qed.



(** ** Pre-order *)

Section Traversal.

Variable ns : list OctreeNode.
Variable planes : list vec4.

Lemma collect_Done {A : Type} (f : A -> outcome (list Z)) (l : list A) (r : list Z) :
  collect f l = Done r ->
  exists segs, r = concat segs /\ Forall2 (fun a seg => f a = Done seg) l segs.
Proof.
  revert r. induction l as [|a l IH]; intros r; simpl.
  - intros [= <-]. exists []. split; [reflexivity|constructor].
  - rewrite bind_Done. intros (seg & Hseg & H). apply bind_Done in H as (rest & Hrest & [= <-]).
    destruct (IH _ Hrest) as (segs & -> & HF).
    exists (seg :: segs). split; [reflexivity|]. constructor; assumption.
Qed.

Lemma visit_preorder (fuel : nat) :
  forall (i : Z) (l : list Z), visit fuel ns planes i = Done l -> preorder ns planes i l.
Proof.
  induction fuel as [|fuel IH]; intros i l H; [discriminate|].
  cbn [visit] in H. apply bind_Done in H as (node & Hn & H).
  apply vec_at_Done in Hn as [Hi Hn].
  destruct (IntersectsFrustum (boundingBox node) planes) eqn:Hint.
  - apply bind_Done in H as (r & Hr & [= <-]).
    apply collect_Done in Hr as (segs & -> & HF).
    eapply preorder_visible; eauto.
    eapply Forall2_impl; [exact HF|]. intros c seg Hc. apply IH, Hc.
  - injection H as <-. eapply preorder_discarded; eauto.
Qed.

(** The loops of [BuildTree] store the child of octant [(x, y, z)] at
    position [x + 2y + 4z] of [children], and run through the positions in
    increasing order, [x] changing fastest. *)
Lemma octants_in_index_order :
  map (fun '(x, y, z) => childIndex x y z) octants = [0; 1; 2; 3; 4; 5; 6; 7].
Proof. reflexivity. Qed.

(** ** Paths through nodes that pass the test *)

Lemma vis_path_passes (r n : Z) : vis_path ns planes r n -> passes ns planes n.
Proof. intros [H|? ? _ _ H]; exact H. Qed.

Lemma vis_path_prepend (r m d : Z) :
  passes ns planes r -> child_of ns r m ->
  vis_path ns planes m d -> vis_path ns planes r d.
Proof.
  intros Hr Hc H. induction H as [Hm|n d' _ IH Hnd Hd].
  - eapply vis_path_step; [apply vis_path_here; exact Hr | exact Hc | exact Hm].
  - eapply vis_path_step; [exact IH | exact Hnd | exact Hd].
Qed.

Lemma collect_elem {A : Type} (f : A -> outcome (list Z)) (l : list A) (r : list Z) (d : Z) :
  collect f l = Done r -> d ∈ r -> exists a seg, a ∈ l /\ f a = Done seg /\ d ∈ seg.
Proof.
  revert r. induction l as [|a l IH]; intros r; simpl.
  - intros [= <-] Hd. inversion Hd.
  - rewrite bind_Done. intros (seg & Hseg & H) Hd.
    apply bind_Done in H as (rest & Hrest & [= <-]).
    apply elem_of_app in Hd as [Hd|Hd].
    + exists a, seg. split; [left|]. auto.
    + destruct (IH _ Hrest Hd) as (b & seg' & Hb & Hfb & Hd').
      exists b, seg'. split; [right; exact Hb|]. auto.
Qed.

(** Every node in the list of a traversal is reached from its start through
    nodes that all pass the test. *)
Lemma visit_vis_path (fuel : nat) :
  forall (i : Z) (l : list Z) (d : Z),
    visit fuel ns planes i = Done l -> d ∈ l -> vis_path ns planes i d.
Proof.
  induction fuel as [|fuel IH]; intros i l d H Hd; [discriminate|].
  cbn [visit] in H. apply bind_Done in H as (node & Hn & H).
  apply vec_at_Done in Hn as [Hi Hn].
  destruct (IntersectsFrustum (boundingBox node) planes) eqn:Hint.
  2:{ injection H as <-. inversion Hd. }
  assert (Hp : passes ns planes i) by (exists node; auto).
  apply bind_Done in H as (r & Hr & [= <-]).
  apply elem_of_cons in Hd as [->|Hd]; [apply vis_path_here; exact Hp|].
  destruct (collect_elem _ _ _ _ Hr Hd) as (c & seg & Hc & Hseg & Hdseg).
  eapply vis_path_prepend; [exact Hp| |eapply IH; eassumption].
  exists node, c. auto.
Qed.

(** In a tree, a node on whose subtree a visible node lies passes the test. *)
Lemma descendant_visible_passes (n d : Z) :
  tree_shaped ns -> descendant ns n d -> vis_path ns planes 0 d -> passes ns planes n.
Proof.
  intros [Huniq Hroot] Hdesc. induction Hdesc as [d Hc|m d _ IH Hc]; intros Hv.
  - inversion Hv as [Hp|n' d' Hv' Hc' Hp]; subst.
    + exfalso. eapply Hroot, Hc.
    + rewrite (Huniq _ _ _ Hc Hc'). eapply vis_path_passes, Hv'.
  - inversion Hv as [Hp|n' d' Hv' Hc' Hp]; subst.
    + exfalso. eapply Hroot, Hc.
    + apply IH. rewrite (Huniq _ _ _ Hc Hc'). exact Hv'.
Qed.

Lemma collect_elem_split {A : Type} (f : A -> outcome (list Z)) (l : list A)
  (r : list Z) (d : Z) :
  collect f l = Done r -> d ∈ r ->
  exists a seg pre post,
    a ∈ l /\ f a = Done seg /\ d ∈ seg /\ r = pre ++ seg ++ post.
Proof.
  revert r. induction l as [|a l IH]; intros r; simpl.
  - intros [= <-] Hd. inversion Hd.
  - rewrite bind_Done. intros (seg & Hseg & H) Hd.
    apply bind_Done in H as (rest & Hrest & [= <-]).
    apply elem_of_app in Hd as [Hd|Hd].
    + exists a, seg, [], rest. split; [left|]. auto.
    + destruct (IH _ Hrest Hd) as (b & seg' & pre & post & Hb & Hfb & Hd' & ->).
      exists b, seg', (seg ++ pre), post. split; [right; exact Hb|].
      rewrite <- app_assoc. auto.
Qed.

(** Parent before child: every node in the list of a traversal, other than
    its start, stands behind a node of which it is a child. *)
Lemma visit_parent_before (fuel : nat) :
  forall (i : Z) (l : list Z) (m : Z),
    visit fuel ns planes i = Done l -> m ∈ l ->
    m = i \/
    exists n l1 l2, l = l1 ++ n :: l2 /\ child_of ns n m /\ m ∈ l2.
Proof.
  induction fuel as [|fuel IH]; intros i l m H Hm; [discriminate|].
  cbn [visit] in H. apply bind_Done in H as (node & Hn & H).
  apply vec_at_Done in Hn as [Hi Hn].
  destruct (IntersectsFrustum (boundingBox node) planes).
  2:{ injection H as <-. inversion Hm. }
  apply bind_Done in H as (r & Hr & [= <-]).
  apply elem_of_cons in Hm as [->|Hm]; [left; reflexivity|]. right.
  destruct (collect_elem_split _ _ _ _ Hr Hm)
    as (c & seg & pre & post & Hc & Hseg & Hmseg & ->).
  destruct (IH _ _ _ Hseg Hmseg) as [->|(n & s1 & s2 & -> & Hnm & Hm2)].
  - exists i, [], (pre ++ seg ++ post). split; [reflexivity|]. split.
    + exists node, c. auto.
    + apply elem_of_app. right. apply elem_of_app. left. exact Hmseg.
  - exists n, (i :: pre ++ s1), (s2 ++ post). split; [|split].
    + simpl. rewrite <- !app_assoc. reflexivity.
    + exact Hnm.
    + apply elem_of_app. left. exact Hm2.
Qed.

Lemma discarded_not_passes (n : Z) :
  discarded ns planes n -> ~ passes ns planes n.
Proof.
  intros (node & _ & Hn & Hf) (node' & _ & Hn' & Ht). congruence.
Qed.

End Traversal.

(** ** Culling a built index *)

Lemma FrustumCull_root_only (fuel : nat) (planes : list vec4) (bb : BoundingBox) :
  FrustumCull (S fuel) planes (root_only bb) =
  Done (mkOctree (nodes_ (root_only bb)) (if IntersectsFrustum bb planes then [0] else [])).
Proof.
  rewrite FrustumCull_visit. cbn [visit root_only nodes_].
  change (vec_at [mkOctreeNode bb [] [] 0] 0) with (Done (mkOctreeNode bb [] [] 0)).
  cbn [bind boundingBox children collect].
  destruct (IntersectsFrustum bb planes); reflexivity.
Qed.

Lemma FrustumCull_built (planes : list vec4) (t : Octree) :
  built t -> exists t', FrustumCull 1 planes t = Done t'.
Proof.
  intros Hb. apply built_root_only in Hb as [bb ->].
  rewrite FrustumCull_root_only. eauto.
Qed.

Lemma root_only_no_child (bb : BoundingBox) (a m : Z) :
  ~ child_of (nodes_ (root_only bb)) a m.
Proof.
  intros (node & c & Ha & Hn & Hc & _).
  pose proof (one_node_index (nodes_ (root_only bb)) _ _ eq_refl Ha Hn) as ->.
  injection Hn as <-. inversion Hc.
Qed.

Lemma built_tree_shaped (t : Octree) : built t -> tree_shaped (nodes_ t).
Proof.
  intros Hb. apply built_root_only in Hb as [bb ->]. split.
  - intros a b m H. exfalso. eapply root_only_no_child, H.
  - intros a. apply root_only_no_child.
Qed.

(** What the test of [IntersectsFrustum] is: a box is rejected when, for
    one of the planes, the six sums that the loop compares are all positive. *)
Lemma IntersectsFrustum_false (bb : BoundingBox) (planes : list vec4) :
  IntersectsFrustum bb planes = false <->
  Exists (fun plane => plane_out bb plane = 6) planes.
Proof.
  induction planes as [|plane planes IH]; simpl.
  - split; [discriminate | intros H; inversion H].
  - destruct (Z.eqb_spec (plane_out bb plane) 6) as [E|E].
    + split; [intros _; left; exact E | reflexivity].
    + rewrite IH. split; [intros H; right; exact H|].
      intros H. inversion H; [contradiction | assumption].
Qed.

Lemma plane_out_6 (bb : BoundingBox) (plane : vec4) :
  plane_out bb plane = 6 <->
  (0 < px plane * vx (bmin bb) + pw plane)%Q /\ (0 < px plane * vx (bmax bb) + pw plane)%Q /\
  (0 < py plane * vy (bmin bb) + pw plane)%Q /\ (0 < py plane * vy (bmax bb) + pw plane)%Q /\
  (0 < pz plane * vz (bmin bb) + pw plane)%Q /\ (0 < pz plane * vz (bmax bb) + pw plane)%Q.
Proof.
  assert (Hlt : forall q, Qltb 0 q = true <-> (0 < q)%Q).
  { intros q. unfold Qltb. rewrite negb_true_iff. split.
    - intros E. apply Qnot_le_lt. intros Hle. apply Qle_bool_iff in Hle. congruence.
    - intros Hq. destruct (Qle_bool q 0) eqn:E; [|reflexivity].
      apply Qle_bool_iff in E. exfalso. eapply Qlt_not_le; eassumption. }
  unfold plane_out. rewrite <- !Hlt.
  destruct (Qltb 0 (px plane * vx (bmin bb) + pw plane)),
           (Qltb 0 (px plane * vx (bmax bb) + pw plane)),
           (Qltb 0 (py plane * vy (bmin bb) + pw plane)),
           (Qltb 0 (py plane * vy (bmax bb) + pw plane)),
           (Qltb 0 (pz plane * vz (bmin bb) + pw plane)),
           (Qltb 0 (pz plane * vz (bmax bb) + pw plane));
    simpl; split; intros H; try discriminate; try reflexivity;
    try (destruct H as (? & ? & ? & ? & ? & ?); discriminate); auto 10.
Qed.

(** The boxes that [BuildTree] gives the children are translates of the box
    of the node: each has the edge lengths of the node's box. *)
Lemma childBoundingBox_size (bb : BoundingBox) (x y z : Z) :
  let cbb := childBoundingBox (box_center bb) (box_extents bb) x y z in
  veq (vsub (bmax cbb) (bmin cbb)) (vsub (bmax bb) (bmin bb)).
Proof.
  unfold veq, childBoundingBox, box_center, box_extents, octant_offset; simpl.
  repeat split; field.
Qed.

(** * The claims *)

(** C1.  Claim: cull discards a node exactly when all 8 corners of its box
    lie strictly outside a single plane.  The code at the index built from
    the points (0,0,0) and (1,1,1) with maxDepth 0, whose root box is the
    unit box: with six planes (1,0,0,1) every corner is inside every plane
    (the plane equation is at least 1) and the root is discarded; with six
    planes (1,0,0,-5) all 8 corners are strictly outside (the plane equation
    is at most -4) and the root is kept; and with the planes read the other
    way round (outside where the equation is positive), six planes
    (-1/2,-1/2,-1/2,3/4) have the corner (1,1,1) on the inner side and the
    root is discarded all the same. *)
Theorem IntersectsFrustum_is_not_the_corner_test :
  Octree_ctor 1 [v 0 0 0; v 1 1 1] 0 = Done (root_only unit_box) /\
  (fully_outside unit_box (six (Vec4 1 0 0 1)) = false /\
   FrustumCull 1 (six (Vec4 1 0 0 1)) (root_only unit_box)
   = Done (mkOctree (nodes_ (root_only unit_box)) [])) /\
  (fully_outside unit_box (six (Vec4 1 0 0 (-5))) = true /\
   FrustumCull 1 (six (Vec4 1 0 0 (-5))) (root_only unit_box)
   = Done (mkOctree (nodes_ (root_only unit_box)) [0])) /\
  (fully_outside_positive unit_box (six (Vec4 (-1#2) (-1#2) (-1#2) (3#4))) = false /\
   FrustumCull 1 (six (Vec4 (-1#2) (-1#2) (-1#2) (3#4))) (root_only unit_box)
   = Done (mkOctree (nodes_ (root_only unit_box)) [])).
Proof. repeat split; vm_compute; reflexivity. Qed.

(** C3.  Claim: the 8 child boxes partition the box of their parent, and
    for the corners of the unit cube with maxDepth 1 child 0 has the box
    [(0,0,0),(1/2,1/2,1/2)] and child 7 the box [(1/2,1/2,1/2),(1,1,1)].
    The code on that input: the scene box is the unit box; the box computed
    for child 0 is the unit box itself and the box computed for child 7 is
    [(1/2,1/2,1/2),(3/2,3/2,3/2)]; the point (5/4,5/4,5/4) lies in the box of
    child 7 and not in the box of the parent; the point (3/4,3/4,3/4) lies
    in the open interior of the boxes of both child 0 and child 7; the
    first iteration of the loop on the root leaves the unit box in
    [children[0]]; and the constructor does not return. *)
Theorem child_boxes_do_not_partition :
  let root := sceneBoundingBox (v 0 0 0) unit_cube in
  let child x y z := childBoundingBox (box_center root) (box_extents root) x y z in
  root = unit_box /\
  bbeq (child 0 0 0) unit_box /\
  ~ bbeq (child 0 0 0) (Box (v 0 0 0) (v (1#2) (1#2) (1#2))) /\
  bbeq (child 1 1 1) (Box (v (1#2) (1#2) (1#2)) (v (3#2) (3#2) (3#2))) /\
  ~ bbeq (child 1 1 1) (Box (v (1#2) (1#2) (1#2)) (v 1 1 1)) /\
  (contains (child 1 1 1) (v (5#4) (5#4) (5#4)) /\ ~ contains root (v (5#4) (5#4) (5#4))) /\
  (interior (child 0 0 0) (v (3#4) (3#4) (3#4)) /\
   interior (child 1 1 1) (v (3#4) (3#4) (3#4))) /\
  (exists s root' child0,
     build_child 1 1 0 0 root (0, 0, 0)
       (mkOctree [mkOctreeNode root (resize 8 node0 []) [] 0] []) = Done s /\
     nodes_ s !! 0%nat = Some root' /\ children root' !! 0%nat = Some child0 /\
     bbeq (boundingBox child0) unit_box) /\
  Octree_ctor 2 unit_cube 1 = Undefined.
Proof.
  cbv zeta. split; [reflexivity|].
  change (sceneBoundingBox (v 0 0 0) unit_cube) with unit_box.
  assert (Hno : forall P : Prop, (P -> False) -> ~ P) by (intros P H; exact H).
  unfold bbeq, veq, contains, interior, vle, Qeq, Qle, Qlt.
  split; [repeat split; vm_compute; reflexivity|].
  split; [apply Hno; vm_compute; intros H; decompose [and] H; discriminate|].
  split; [repeat split; vm_compute; reflexivity|].
  split; [apply Hno; vm_compute; intros H; decompose [and] H; discriminate|].
  split.
  { split; [repeat split; vm_compute; discriminate|].
    apply Hno; vm_compute; intros H; decompose [and] H; auto. }
  split; [repeat split; vm_compute; reflexivity|].
  split; [|vm_compute; reflexivity].
  eexists _, _, _. split; [vm_compute; reflexivity|].
  split; [reflexivity|]. split; [reflexivity|].
  repeat split; vm_compute; reflexivity.
Qed.

(** C4, as stated, fails: a call of cull with five planes on a built index
    is not rejected.  It returns normally, and the visible set it leaves
    differs from the one it found. *)
Lemma cull_with_five_planes_is_not_rejected :
  let t := root_only unit_box in
  let planes := replicate 5 (Vec4 0 0 0 (-1)) in
  Octree_ctor 1 [v 0 0 0; v 1 1 1] 0 = Done t /\
  length planes <> 6%nat /\
  exists t', FrustumCull 1 planes t = Done t' /\
             visibleNodes_ t' = [0] /\ visibleNodes_ t' <> visibleNodes_ t.
Proof.
  cbv zeta. split; [vm_compute; reflexivity|]. split; [simpl; lia|].
  eexists. split; [vm_compute; reflexivity|]. split; [reflexivity|discriminate].
Qed.

(** C4, amended.  No precondition is checked and nothing is reported as a
    failure.  With an empty point set the constructor reads [vertices[0]]
    of an empty vector; with a negative maxDepth it never returns; every
    index it does return comes from a non-empty point set and a maxDepth
    that is not negative.  On such an index cull returns normally for any
    number of planes, with the index unchanged and the visible set rebuilt
    from the planes it was given. *)
Theorem no_input_validation (fuel : nat) (vertices : list vec3) (maxDepth : Z)
  (planes : list vec4) :
  (vertices = [] -> Octree_ctor fuel vertices maxDepth = Undefined) /\
  (maxDepth < 0 -> forall t, Octree_ctor fuel vertices maxDepth <> Done t) /\
  (forall t, Octree_ctor fuel vertices maxDepth = Done t ->
     exists root,
       nodes_ t = [root] /\
       FrustumCull 1 planes t =
       Done (mkOctree (nodes_ t)
               (if IntersectsFrustum (boundingBox root) planes then [0] else []))).
Proof.
  split; [|split].
  - intros ->. apply Octree_ctor_empty.
  - intros Hd t H. apply Octree_ctor_Done_inv in H as [-> _]. lia.
  - intros t H. apply Octree_ctor_Done_inv in H as (_ & v0 & rest & _ & ->).
    eexists. split; [reflexivity|]. apply FrustumCull_root_only.
Qed.

Lemma no_input_validation_witness :
  Octree_ctor 1 [] 0 = Undefined /\
  (forall t, Octree_ctor 3 unit_cube (-1) <> Done t) /\
  exists root,
    nodes_ (root_only unit_box) = [root] /\
    FrustumCull 1 [] (root_only unit_box) =
    Done (mkOctree (nodes_ (root_only unit_box))
            (if IntersectsFrustum (boundingBox root) [] then [0] else [])).
Proof.
  split; [|split].
  - apply (no_input_validation 1 [] 0 []). reflexivity.
  - apply (no_input_validation 3 unit_cube (-1) []). lia.
  - apply (no_input_validation 1 unit_cube 0 []). vm_compute. reflexivity.
Defined.

(** C5.  Claim: maxDepth = d > 0 gives a tree with 8^d leaves.  The code
    with the single point (0,0,0): for maxDepth 1 and for maxDepth 2 no
    amount of fuel makes the constructor return an index, and with the fuel
    the depth needs it reaches an access outside [nodes_]; for maxDepth 0 it
    returns the one-node index. *)
Theorem ctor_positive_depth_returns_no_tree :
  (forall fuel t, Octree_ctor fuel [v 0 0 0] 1 <> Done t) /\
  (forall fuel t, Octree_ctor fuel [v 0 0 0] 2 <> Done t) /\
  Octree_ctor 2 [v 0 0 0] 1 = Undefined /\
  Octree_ctor 3 [v 0 0 0] 2 = Undefined /\
  Octree_ctor 1 [v 0 0 0] 0 = Done (root_only (Box (v 0 0 0) (v 0 0 0))).
Proof.
  split; [|split; [|split; [|split]]].
  - intros fuel t H. apply Octree_ctor_Done_inv in H as [H _]. discriminate H.
  - intros fuel t H. apply Octree_ctor_Done_inv in H as [H _]. discriminate H.
  - vm_compute. reflexivity.
  - vm_compute. reflexivity.
  - vm_compute. reflexivity.
Qed.

(** C6.  Claim: for every maxDepth d >= 0 the root box of the tree that
    build returns contains every point.  The code with the corners of the
    unit cube and maxDepth 1: the scene box that the constructor computes
    is the unit box and contains every corner, and the constructor then
    does not return an index, whatever the fuel. *)
Theorem ctor_unit_cube_depth1_has_no_root :
  sceneBoundingBox (v 0 0 0) unit_cube = unit_box /\
  (forall p, p ∈ unit_cube -> contains (sceneBoundingBox (v 0 0 0) unit_cube) p) /\
  (forall fuel t, Octree_ctor fuel unit_cube 1 <> Done t) /\
  (forall fuel, (2 <= fuel)%nat -> Octree_ctor fuel unit_cube 1 = Undefined).
Proof.
  split; [reflexivity|]. split; [|split].
  - intros p. apply sceneBoundingBox_contains.
  - intros fuel t H. apply Octree_ctor_Done_inv in H as [H _]. discriminate H.
  - intros fuel Hf. apply Octree_ctor_deep_Undefined; simpl; lia.
Qed.

Lemma ctor_unit_cube_depth1_has_no_root_witness :
  contains (sceneBoundingBox (v 0 0 0) unit_cube) (v 1 0 1) /\
  Octree_ctor 5 unit_cube 1 = Undefined.
Proof.
  split.
  - apply ctor_unit_cube_depth1_has_no_root. unfold unit_cube, v.
    do 5 right. left.
  - apply ctor_unit_cube_depth1_has_no_root. lia.
Defined.


Lemma arena4_edges (a m : Z) :
  child_of (nodes_ arena4) a m -> (a = 0 /\ m = 1) \/ (a = 0 /\ m = 2) \/ (a = 1 /\ m = 3).
Proof.
  intros (node & c & Ha & Hn & Hc & Hm).
  assert (Z.to_nat a < 4)%nat as Hlt by (apply lookup_lt_Some in Hn; exact Hn).
  assert (a = 0 \/ a = 1 \/ a = 2 \/ a = 3) as [-> | [-> | [-> | ->]]] by lia;
    vm_compute in Hn; injection Hn as <-; cbn [children] in Hc;
    repeat (apply elem_of_cons in Hc as [-> | Hc]); try (inversion Hc; fail);
    cbn in Hm; subst m; auto.
Qed.

Lemma arena4_tree_shaped : tree_shaped (nodes_ arena4).
Proof.
  split.
  - intros a b m Ha Hb. apply arena4_edges in Ha, Hb. lia.
  - intros a Ha. apply arena4_edges in Ha. lia.
Qed.

Lemma arena4_child_1_3 : child_of (nodes_ arena4) 1 3.
Proof.
  exists (mkOctreeNode (Box (v (1#2) (1#2) (1#2)) (v 1 1 1)) [ref 3] [] 1), (ref 3).
  split; [lia|]. split; [reflexivity|]. split; [left|reflexivity].
Qed.

Lemma arena4_discarded_1 : discarded (nodes_ arena4) diagonal_planes 1.
Proof.
  exists (mkOctreeNode (Box (v (1#2) (1#2) (1#2)) (v 1 1 1)) [ref 3] [] 1).
  split; [lia|]. split; reflexivity.
Qed.

(** X16.  The list that cull leaves in [visibleNodes_] is in pre-order: a
    node that passes the test stands before everything its children
    contribute, and the children contribute in the order of the vector
    [children], that is in increasing octant index (see
    [octants_in_index_order]).  Cull returns on every built index, and
    whenever it returns, on any arena and for any number of planes, the index
    is unchanged, the list is the pre-order list from the root, and every
    node in it other than the root stands behind a node whose child it is. *)
Theorem FrustumCull_preorder (t : Octree) (planes : list vec4) :
  (built t -> exists t', FrustumCull 1 planes t = Done t') /\
  (forall fuel t',
     FrustumCull fuel planes t = Done t' ->
     nodes_ t' = nodes_ t /\
     preorder (nodes_ t) planes 0 (visibleNodes_ t') /\
     forall m, m ∈ visibleNodes_ t' ->
       m = 0 \/
       exists n l1 l2,
         visibleNodes_ t' = l1 ++ n :: l2 /\ child_of (nodes_ t) n m /\ m ∈ l2).
Proof.
  split; [apply FrustumCull_built|].
  intros fuel t' H. apply FrustumCull_Done in H as (l & Hl & ->).
  split; [reflexivity|]. split; [eapply visit_preorder, Hl|].
  intros m Hm. eapply visit_parent_before; eassumption.
Qed.

Lemma FrustumCull_preorder_witness :
  (exists t', FrustumCull 1 (six (Vec4 1 0 0 1)) (root_only unit_box) = Done t') /\
  preorder (nodes_ arena4) diagonal_planes 0 [0; 2].
Proof.
  split.
  - apply (FrustumCull_preorder (root_only unit_box) (six (Vec4 1 0 0 1))).
    exists 1%nat, [v 0 0 0; v 1 1 1], 0. vm_compute. reflexivity.
  - apply (proj2 (FrustumCull_preorder arena4 diagonal_planes) 3%nat
             (mkOctree (nodes_ arena4) [0; 2])).
    vm_compute. reflexivity.
Defined.

(** X17.  In an arena of tree shape, when cull returns, no descendant of a
    node that the test rejects is in [visibleNodes_].  Every built index has
    tree shape, and cull returns on it. *)
Theorem discarded_subtree_not_visible (t : Octree) (planes : list vec4) :
  (built t -> tree_shaped (nodes_ t) /\ exists t', FrustumCull 1 planes t = Done t') /\
  (tree_shaped (nodes_ t) ->
   forall fuel t' n d,
     FrustumCull fuel planes t = Done t' ->
     discarded (nodes_ t) planes n ->
     descendant (nodes_ t) n d ->
     d ∉ visibleNodes_ t').
Proof.
  split.
  - intros Hb. split; [apply built_tree_shaped, Hb | apply FrustumCull_built, Hb].
  - intros Htree fuel t' n d H Hdis Hdesc Hd.
    apply FrustumCull_Done in H as (l & Hl & ->). cbn [visibleNodes_] in Hd.
    apply (discarded_not_passes _ _ _ Hdis).
    eapply descendant_visible_passes; [exact Htree | exact Hdesc |].
    eapply visit_vis_path; eassumption.
Qed.

Lemma discarded_subtree_not_visible_witness :
  (tree_shaped (nodes_ arena4) /\
   FrustumCull 3 diagonal_planes arena4 = Done (mkOctree (nodes_ arena4) [0; 2]) /\
   discarded (nodes_ arena4) diagonal_planes 1 /\
   descendant (nodes_ arena4) 1 3) /\
  (3 ∉ [0; 2]) /\
  tree_shaped (nodes_ (root_only unit_box)).
Proof.
  assert (H : FrustumCull 3 diagonal_planes arena4 = Done (mkOctree (nodes_ arena4) [0; 2]))
    by (vm_compute; reflexivity).
  split; [|split].
  - split; [exact arena4_tree_shaped|]. split; [exact H|].
    split; [exact arena4_discarded_1|]. apply descendant_child, arena4_child_1_3.
  - apply (proj2 (discarded_subtree_not_visible arena4 diagonal_planes)
             arena4_tree_shaped 3%nat (mkOctree (nodes_ arena4) [0; 2]) 1 3
             H arena4_discarded_1 (descendant_child _ _ _ arena4_child_1_3)).
  - apply (discarded_subtree_not_visible (root_only unit_box) diagonal_planes).
    exists 1%nat, [v 0 0 0; v 1 1 1], 0. vm_compute. reflexivity.
Defined.



(** C10.  Claim: with maxDepth >= 1 every access to [nodes_] during
    construction is in bounds.  The code: [nodes_] has one element when
    [BuildTree] is first called and keeps that size; for every non-empty
    vertex list and every maxDepth >= 1, once the fuel covers the depth, the
    construction ends in an access outside [nodes_]: the call
    [BuildTree(nodeIndex + 1, ...)] for the child with index 1 of the
    deepest non-leaf reads [nodes_[1]]. *)
Theorem BuildTree_reads_outside_nodes (fuel : nat) (v0 : vec3) (rest : list vec3)
  (maxDepth : Z) :
  1 <= maxDepth -> (Z.to_nat maxDepth < fuel)%nat ->
  Octree_ctor fuel (v0 :: rest) maxDepth = Undefined /\
  forall (depth : Z) (bb : BoundingBox) (t : Octree),
    length (nodes_ t) = 1%nat ->
    BuildTree fuel maxDepth (0 + childIndex 1 0 0) depth bb t = Undefined.
Proof.
  intros Hd Hf. split; [apply Octree_ctor_deep_Undefined; assumption|].
  intros depth bb t Hlen. destruct fuel as [|fuel]; [lia|].
  apply BuildTree_missing_node. right. rewrite Hlen. unfold childIndex. lia.
Qed.

Lemma BuildTree_reads_outside_nodes_witness :
  (1 <= 1 /\ (Z.to_nat 1 < 2)%nat) /\
  Octree_ctor 2 [v 0 0 0] 1 = Undefined.
Proof.
  split; [split; [lia | simpl; lia]|].
  apply (BuildTree_reads_outside_nodes 2 (v 0 0 0) [] 1); [lia | simpl; lia].
Defined.


(** * Further properties of the code *)

(** ** The test of [IntersectsFrustum] *)

Lemma Qltb_lt (a b : Q) : Qltb a b = true <-> (a < b)%Q.
Proof.
  unfold Qltb. rewrite negb_true_iff. split.
  - intros E. apply Qnot_le_lt. intros Hle. apply Qle_bool_iff in Hle. congruence.
  - intros Hq. destruct (Qle_bool b a) eqn:E; [|reflexivity].
    apply Qle_bool_iff in E. exfalso. eapply Qlt_not_le; eassumption.
Qed.

Lemma bool_eq_by_false (a b : bool) : (a = false <-> b = false) -> a = b.
Proof.
  destruct a, b; intros [H1 H2]; try reflexivity.
  - apply H2. reflexivity.
  - symmetry. apply H1. reflexivity.
Qed.

(** A sum [a * m + w] that is positive at both ends of an interval is
    positive inside it. *)
Lemma positive_between (a w lo hi m : Q) :
  (0 < a * lo + w -> 0 < a * hi + w -> lo <= m -> m <= hi -> 0 < a * m + w)%Q.
Proof.
  intros Hlo Hhi H1 H2. destruct (Qlt_le_dec a 0) as [Ha|Ha].
  - assert (0 <= (-a) * (hi - m))%Q by (apply Qmult_le_0_compat; lra). lra.
  - assert (0 <= a * (m - lo))%Q by (apply Qmult_le_0_compat; lra). lra.
Qed.

Lemma plane_out_within (inner outer : BoundingBox) (plane : vec4) :
  box_within inner outer -> plane_out outer plane = 6 -> plane_out inner plane = 6.
Proof.
  intros [[(L1 & L2 & L3) (L4 & L5 & L6)] [(U1 & U2 & U3) (U4 & U5 & U6)]].
  rewrite !plane_out_6. intros (H1 & H2 & H3 & H4 & H5 & H6).
  repeat split.
  - apply (positive_between _ _ (vx (bmin outer)) (vx (bmax outer))); assumption.
  - apply (positive_between _ _ (vx (bmin outer)) (vx (bmax outer))); assumption.
  - apply (positive_between _ _ (vy (bmin outer)) (vy (bmax outer))); assumption.
  - apply (positive_between _ _ (vy (bmin outer)) (vy (bmax outer))); assumption.
  - apply (positive_between _ _ (vz (bmin outer)) (vz (bmax outer))); assumption.
  - apply (positive_between _ _ (vz (bmin outer)) (vz (bmax outer))); assumption.
Qed.

(** X1.  A box that [IntersectsFrustum] rejects takes every box inside it
    with it: when the two extreme corners of [inner] lie in [outer] and the
    test rejects [outer], it rejects [inner]. *)
Theorem IntersectsFrustum_rejects_inner_boxes (inner outer : BoundingBox)
  (planes : list vec4) :
  box_within inner outer ->
  IntersectsFrustum outer planes = false ->
  IntersectsFrustum inner planes = false.
Proof.
  intros Hin. rewrite !IntersectsFrustum_false. intros H.
  eapply Exists_impl; [exact H|].
  intros plane. apply plane_out_within, Hin.
Qed.

Lemma IntersectsFrustum_rejects_inner_boxes_witness :
  IntersectsFrustum (Box (v (1#4) (1#4) (1#4)) (v (1#2) (3#4) 1)) (six (Vec4 1 0 0 1)) = false.
Proof.
  apply (IntersectsFrustum_rejects_inner_boxes _ unit_box).
  - unfold box_within, contains, vle, Qle. vm_compute. repeat split; discriminate.
  - vm_compute. reflexivity.
Defined.

Lemma IntersectsFrustum_app (bb : BoundingBox) (p1 p2 : list vec4) :
  IntersectsFrustum bb (p1 ++ p2) = IntersectsFrustum bb p1 && IntersectsFrustum bb p2.
Proof.
  induction p1 as [|plane p1 IH]; simpl; [reflexivity|].
  destruct (plane_out bb plane =? 6); [reflexivity | exact IH].
Qed.

(** X2.  The planes act as a conjunction: a box passes a list of planes put
    together from two lists exactly when it passes both, and the order of
    the planes does not matter. *)
Theorem IntersectsFrustum_planes_conjunction (bb : BoundingBox) (p1 p2 : list vec4) :
  IntersectsFrustum bb (p1 ++ p2) = IntersectsFrustum bb p1 && IntersectsFrustum bb p2 /\
  (forall p', Permutation p1 p' -> IntersectsFrustum bb p1 = IntersectsFrustum bb p').
Proof.
  split; [apply IntersectsFrustum_app|].
  intros p' Hp. apply bool_eq_by_false. rewrite !IntersectsFrustum_false.
  rewrite !Exists_exists. split; intros (plane & Hin & H); exists plane; split; auto.
  - rewrite <- Hp. exact Hin.
  - rewrite Hp. exact Hin.
Qed.

Lemma IntersectsFrustum_planes_conjunction_witness :
  IntersectsFrustum unit_box [Vec4 1 0 0 1; Vec4 1 0 0 (-5)]
  = IntersectsFrustum unit_box [Vec4 1 0 0 (-5); Vec4 1 0 0 1].
Proof.
  apply (IntersectsFrustum_planes_conjunction unit_box
           [Vec4 1 0 0 1; Vec4 1 0 0 (-5)] []).
  apply perm_swap.
Defined.


(** ** The scene box of the constructor *)

Lemma fmin_cases (x y : Q) : fmin x y = x \/ fmin x y = y.
Proof. unfold fmin. destruct (Qltb y x); auto. Qed.

Lemma fmax_cases (x y : Q) : fmax x y = x \/ fmax x y = y.
Proof. unfold fmax. destruct (Qltb x y); auto. Qed.

Lemma contains_vmin (B : BoundingBox) (a p : vec3) :
  contains B a -> contains B p -> contains B (vmin a p).
Proof.
  unfold contains, vle, vmin; cbn [vx vy vz].
  intros [(A1 & A2 & A3) (A4 & A5 & A6)] [(P1 & P2 & P3) (P4 & P5 & P6)].
  destruct (fmin_cases (vx a) (vx p)) as [-> | ->],
           (fmin_cases (vy a) (vy p)) as [-> | ->],
           (fmin_cases (vz a) (vz p)) as [-> | ->]; auto 10.
Qed.

Lemma contains_vmax (B : BoundingBox) (a p : vec3) :
  contains B a -> contains B p -> contains B (vmax a p).
Proof.
  unfold contains, vle, vmax; cbn [vx vy vz].
  intros [(A1 & A2 & A3) (A4 & A5 & A6)] [(P1 & P2 & P3) (P4 & P5 & P6)].
  destruct (fmax_cases (vx a) (vx p)) as [-> | ->],
           (fmax_cases (vy a) (vy p)) as [-> | ->],
           (fmax_cases (vz a) (vz p)) as [-> | ->]; auto 10.
Qed.

Lemma fold_grow_within (B : BoundingBox) (l : list vec3) :
  (forall p, p ∈ l -> contains B p) ->
  forall bb, box_within bb B -> box_within (fold_left grow l bb) B.
Proof.
  induction l as [|q l IH]; intros Hl bb Hbb; simpl; [exact Hbb|].
  apply IH; [intros p Hp; apply Hl; right; exact Hp|].
  destruct Hbb as [Hmin Hmax]. split; cbn [grow bmin bmax].
  - apply contains_vmin; [exact Hmin | apply Hl; left].
  - apply contains_vmax; [exact Hmax | apply Hl; left].
Qed.

(** Every box that contains the vertices contains the scene box. *)
Lemma sceneBoundingBox_within (B : BoundingBox) (v0 : vec3) (vertices : list vec3) :
  v0 ∈ vertices -> (forall p, p ∈ vertices -> contains B p) ->
  box_within (sceneBoundingBox v0 vertices) B.
Proof.
  intros H0 Hall. apply fold_grow_within; [exact Hall|].
  split; apply Hall, H0.
Qed.

Lemma contains_wellformed (bb : BoundingBox) (p : vec3) : contains bb p -> wellformed bb.
Proof.
  intros [(H1 & H2 & H3) (H4 & H5 & H6)].
  repeat split; eapply Qle_trans; eassumption.
Qed.

(** X4.  For every non-empty vertex list the constructor with maxDepth 0
    returns, with one level of recursion, the index of one node: the root
    has no children and no objects, the visible list is empty, and the box
    of the root has [min <= max] and contains every vertex. *)
Theorem Octree_ctor_leaf_index (fuel : nat) (vertices : list vec3) :
  vertices <> [] ->
  exists bb,
    Octree_ctor (S fuel) vertices 0 = Done (mkOctree [mkOctreeNode bb [] [] 0] []) /\
    wellformed bb /\
    forall p, p ∈ vertices -> contains bb p.
Proof.
  destruct vertices as [|v0 rest]; [congruence|]. intros _.
  exists (sceneBoundingBox v0 (v0 :: rest)).
  split; [apply Octree_ctor_depth0|].
  assert (Hall : forall p, p ∈ v0 :: rest -> contains (sceneBoundingBox v0 (v0 :: rest)) p)
    by (intros p; apply sceneBoundingBox_contains).
  split; [|exact Hall]. eapply contains_wellformed, (Hall v0). left.
Qed.

Lemma Octree_ctor_leaf_index_witness :
  exists bb,
    Octree_ctor 1 unit_cube 0 = Done (mkOctree [mkOctreeNode bb [] [] 0] []) /\
    wellformed bb /\
    forall p, p ∈ unit_cube -> contains bb p.
Proof.
  apply (Octree_ctor_leaf_index 0 unit_cube). discriminate.
Defined.

(** X5.  The root box is the tightest: whenever the constructor returns an
    index, the two extreme corners of the box of its root lie in every box
    that contains all the vertices. *)
Theorem Octree_ctor_root_box_tightest (fuel : nat) (vertices : list vec3) (maxDepth : Z)
  (t : Octree) (root : OctreeNode) (B : BoundingBox) :
  Octree_ctor fuel vertices maxDepth = Done t ->
  nodes_ t !! 0%nat = Some root ->
  (forall p, p ∈ vertices -> contains B p) ->
  box_within (boundingBox root) B.
Proof.
  intros H Hroot Hall.
  apply Octree_ctor_Done_inv in H as (_ & v0 & rest & -> & ->).
  injection Hroot as <-. cbn [boundingBox].
  apply sceneBoundingBox_within; [left | exact Hall].
Qed.

Lemma Octree_ctor_root_box_tightest_witness :
  box_within unit_box (Box (v (-1) (-1) (-1)) (v 2 2 2)).
Proof.
  apply (Octree_ctor_root_box_tightest 1 unit_cube 0 (root_only unit_box)
           (mkOctreeNode unit_box [] [] 0) (Box (v (-1) (-1) (-1)) (v 2 2 2))).
  - vm_compute. reflexivity.
  - reflexivity.
  - intros p Hp. unfold unit_cube in Hp.
    repeat (apply elem_of_cons in Hp as [-> | Hp]); try (inversion Hp; fail);
      unfold contains, vle, Qle; vm_compute; repeat split; discriminate.
Defined.

Lemma box_within_antisym (a b : BoundingBox) :
  box_within a b -> box_within b a -> bbeq a b.
Proof.
  intros [[(A1 & A2 & A3) _] [_ (A4 & A5 & A6)]] [[(B1 & B2 & B3) _] [_ (B4 & B5 & B6)]].
  repeat split; apply Qle_antisym; assumption.
Qed.

(** X6.  The root box does not depend on the order of the vertices: when
    the constructor returns an index for a vertex list, it returns one for
    every rearrangement of the list, with the same root box. *)
Theorem Octree_ctor_vertex_order (fuel : nat) (vertices vertices' : list vec3)
  (maxDepth : Z) (t : Octree) :
  Octree_ctor fuel vertices maxDepth = Done t ->
  Permutation vertices vertices' ->
  exists bb bb',
    t = root_only bb /\
    Octree_ctor fuel vertices' maxDepth = Done (root_only bb') /\
    bbeq bb bb'.
Proof.
  intros H Hperm. pose proof H as H0.
  apply Octree_ctor_Done_inv in H0 as (-> & v0 & rest & -> & ->).
  destruct vertices' as [|v0' rest'].
  { apply Permutation_nil_r in Hperm. discriminate. }
  destruct fuel as [|fuel]; [discriminate|].
  exists (sceneBoundingBox v0 (v0 :: rest)), (sceneBoundingBox v0' (v0' :: rest')).
  split; [reflexivity|]. split; [apply Octree_ctor_depth0|].
  apply box_within_antisym.
  - apply sceneBoundingBox_within; [left|].
    intros p Hp. apply sceneBoundingBox_contains. rewrite <- Hperm. exact Hp.
  - apply sceneBoundingBox_within; [left|].
    intros p Hp. apply sceneBoundingBox_contains. rewrite Hperm. exact Hp.
Qed.

Lemma Octree_ctor_vertex_order_witness :
  exists bb bb',
    root_only unit_box = root_only bb /\
    Octree_ctor 1 (rev unit_cube) 0 = Done (root_only bb') /\
    bbeq bb bb'.
Proof.
  apply (Octree_ctor_vertex_order 1 unit_cube (rev unit_cube) 0 (root_only unit_box)).
  - vm_compute. reflexivity.
  - apply Permutation_rev.
Defined.

(** ** What [BuildTree] keeps *)

Lemma octants_range (x y z : Z) :
  (x, y, z) ∈ octants -> 0 <= childIndex x y z <= 7.
Proof.
  rewrite octants_eq. intros H.
  repeat (apply elem_of_cons in H as [[= -> -> ->] | H]); try (inversion H; fail);
    unfold childIndex; lia.
Qed.

Lemma kept_refl (i : Z) (t : Octree) : kept i t t.
Proof. repeat split; reflexivity. Qed.

Lemma kept_trans (i i' : Z) (t s u : Octree) :
  i <= i' -> kept i t s -> kept i' s u -> kept i t u.
Proof.
  intros Hi (L1 & V1 & B1 & O1 & N1) (L2 & V2 & B2 & O2 & N2).
  repeat split; try congruence.
  intros j Hj. rewrite B2 by lia. apply B1, Hj.
Qed.

Lemma kept_insert (i : Z) (t : Octree) (node node' : OctreeNode) :
  nodes_ t !! Z.to_nat i = Some node ->
  objects node' = objects node -> nodeIndex node' = nodeIndex node ->
  kept i t (set_nodes t (<[Z.to_nat i := node']> (nodes_ t))).
Proof.
  intros Hn Ho Hx. unfold kept. cbn [set_nodes nodes_ visibleNodes_].
  rewrite length_insert, !list_fmap_insert, Ho, Hx.
  split; [reflexivity|]. split; [reflexivity|]. split; [|split].
  - intros j Hj. apply list_lookup_insert_ne. lia.
  - apply list_insert_id. rewrite list_lookup_fmap, Hn. reflexivity.
  - apply list_insert_id. rewrite list_lookup_fmap, Hn. reflexivity.
Qed.

Lemma write_child_box_kept (t t' : Octree) (i c : Z) (bb : BoundingBox) :
  write_child_box t i c bb = Done t' -> kept i t t'.
Proof.
  intros H. apply write_child_box_Done in H as (node & child & _ & Hn & _ & _ & ->).
  eapply kept_insert; [exact Hn | reflexivity | reflexivity].
Qed.

Lemma BuildTree_kept (fuel : nat) (maxDepth : Z) :
  forall (i depth : Z) (bb : BoundingBox) (t t' : Octree),
    BuildTree fuel maxDepth i depth bb t = Done t' -> kept i t t'.
Proof.
  induction fuel as [|fuel IH]; intros i depth bb t t' H; [discriminate|].
  destruct (vec_at_cases (nodes_ t) i) as [[node Hn]|Hu].
  2:{ cbn [BuildTree] in H. rewrite Hu in H. discriminate. }
  apply vec_at_Done in Hn as [Hi Hn].
  rewrite (BuildTree_step _ _ _ _ _ _ _ Hi Hn) in H.
  destruct (depth =? maxDepth).
  - injection H as <-. eapply kept_insert; [exact Hn | reflexivity | reflexivity].
  - revert H. apply (for_each_invariant (kept i t)).
    + intros [[x y] z] s s' Hoct Hs Hb. unfold build_child in Hb.
      apply bind_Done in Hb as (s1 & Hw & Hb).
      apply write_child_box_kept in Hw. apply IH in Hb.
      pose proof (octants_range _ _ _ Hoct).
      eapply kept_trans; [|eapply kept_trans; [|exact Hs|exact Hw]|exact Hb]; lia.
    + eapply kept_insert; [exact Hn | reflexivity | reflexivity].
Qed.

(** X7.  [BuildTree] never grows or shrinks [nodes_]: when a call on node
    [nodeIndex] returns, the arena has the size it had, the visible list is
    as it was, every node below [nodeIndex] is as it was, and no node of the
    arena has had its [objects] (or its [nodeIndex]) changed. *)
Theorem BuildTree_keeps_arena (fuel : nat) (maxDepth i depth : Z) (bb : BoundingBox)
  (t t' : Octree) :
  BuildTree fuel maxDepth i depth bb t = Done t' ->
  length (nodes_ t') = length (nodes_ t) /\
  visibleNodes_ t' = visibleNodes_ t /\
  (forall j, (j < Z.to_nat i)%nat -> nodes_ t' !! j = nodes_ t !! j) /\
  objects <$> nodes_ t' = objects <$> nodes_ t /\
  nodeIndex <$> nodes_ t' = nodeIndex <$> nodes_ t.
Proof. apply BuildTree_kept. Qed.

Lemma BuildTree_keeps_arena_witness :
  length (nodes_ (blank_arena 9)) = 9%nat /\
  exists t', BuildTree 2 1 1 0 unit_box (blank_arena 9) = Done t' /\
             length (nodes_ t') = 9%nat /\ nodes_ t' !! 0%nat = Some node0.
Proof.
  split; [reflexivity|].
  assert (H : exists t', BuildTree 2 1 1 0 unit_box (blank_arena 9) = Done t')
    by (eexists; vm_compute; reflexivity).
  destruct H as [t' H]. exists t'. split; [exact H|].
  destruct (BuildTree_keeps_arena 2 1 1 0 unit_box (blank_arena 9) t' H)
    as (Hlen & _ & Hbelow & _).
  split; [exact Hlen|]. rewrite Hbelow by (simpl; lia). reflexivity.
Defined.

(** ** Where [BuildTree] stays in bounds *)

Lemma write_child_box_ok (t : Octree) (i c : Z) (bb : BoundingBox) (node : OctreeNode) :
  0 <= i -> nodes_ t !! Z.to_nat i = Some node ->
  0 <= c -> (Z.to_nat c < length (children node))%nat ->
  exists t', write_child_box t i c bb = Done t' /\
             length (nodes_ t') = length (nodes_ t) /\
             exists node', nodes_ t' !! Z.to_nat i = Some node' /\
                           length (children node') = length (children node).
Proof.
  intros Hi Hn Hc Hlt. apply lookup_lt_is_Some_2 in Hlt as [child Hchild].
  eexists. split.
  - apply write_child_box_Done. exists node, child. repeat split; eauto.
  - cbn [set_nodes nodes_]. rewrite length_insert. split; [reflexivity|].
    eexists. split.
    + apply list_lookup_insert_eq. eapply lookup_lt_Some, Hn.
    + cbn [set_children children]. apply length_insert.
Qed.

Lemma for_each_total {A S : Type} (P : S -> Prop) (body : A -> S -> outcome S)
  (l : list A) :
  (forall a s, a ∈ l -> P s -> exists s', body a s = Done s' /\ P s') ->
  forall s, P s -> exists s', for_each body l s = Done s' /\ P s'.
Proof.
  induction l as [|a l IH]; intros Hbody s HP; simpl.
  - exists s. auto.
  - destruct (Hbody a s) as (s1 & H1 & HP1); [left | exact HP |].
    rewrite H1. simpl. apply IH; [|exact HP1].
    intros b u Hb. apply Hbody. right; exact Hb.
Qed.

Lemma for_each_Done_elem {A S : Type} (P : S -> Prop) (body : A -> S -> outcome S)
  (l : list A) :
  (forall a u u', a ∈ l -> P u -> body a u = Done u' -> P u') ->
  forall s s', P s -> for_each body l s = Done s' ->
  forall a, a ∈ l -> exists u u', P u /\ body a u = Done u'.
Proof.
  induction l as [|b l IH]; intros Hbody s s' HP H a Ha; [inversion Ha|].
  simpl in H. apply bind_Done in H as (s1 & H1 & H).
  apply elem_of_cons in Ha as [->|Ha].
  - exists s, s1. auto.
  - eapply (IH (fun c u u' Hc => Hbody c u u' (proj2 (elem_of_cons _ _ _) (or_intror Hc)))
              s1 s'); [|exact H|exact Ha].
    eapply Hbody; [left | exact HP | exact H1].
Qed.

(** A node with eight children keeps eight children through a call of
    [BuildTree] on it. *)
Lemma BuildTree_keeps_eight (fuel : nat) (maxDepth : Z) :
  forall (i depth : Z) (bb : BoundingBox) (t t' : Octree) (node : OctreeNode),
    BuildTree fuel maxDepth i depth bb t = Done t' ->
    nodes_ t !! Z.to_nat i = Some node -> length (children node) = 8%nat ->
    exists node', nodes_ t' !! Z.to_nat i = Some node' /\ length (children node') = 8%nat.
Proof.
  induction fuel as [|fuel IH]; intros i depth bb t t' node H Hn H8; [discriminate|].
  assert (Hi : 0 <= i).
  { destruct (Z.ltb_spec i 0) as [Hneg|]; [|assumption].
    rewrite BuildTree_missing_node in H by (left; exact Hneg). discriminate. }
  rewrite (BuildTree_step _ _ _ _ _ _ _ Hi Hn) in H.
  pose proof (lookup_lt_Some _ _ _ Hn) as Hlt.
  destruct (depth =? maxDepth).
  - injection H as <-. cbn [set_nodes nodes_]. eexists. split.
    + apply list_lookup_insert_eq. exact Hlt.
    + exact H8.
  - revert H.
    apply (for_each_invariant
             (fun s => exists node', nodes_ s !! Z.to_nat i = Some node'
                                     /\ length (children node') = 8%nat)).
    + intros [[x y] z] s s' Hoct (n1 & Hn1 & H81) Hb. unfold build_child in Hb.
      apply bind_Done in Hb as (s1 & Hw & Hb).
      pose proof (octants_range _ _ _ Hoct) as Hk.
      apply write_child_box_Done in Hw as (n1' & c1 & _ & Hn1' & _ & _ & ->).
      rewrite Hn1 in Hn1'. injection Hn1' as <-.
      set (n2 := set_children n1 _) in Hb.
      assert (Hn2 : nodes_ (set_nodes s (<[Z.to_nat i := n2]> (nodes_ s))) !! Z.to_nat i
                    = Some n2).
      { cbn [set_nodes nodes_]. apply list_lookup_insert_eq. eapply lookup_lt_Some, Hn1. }
      assert (H82 : length (children n2) = 8%nat).
      { subst n2. cbn [set_children children]. rewrite length_insert. exact H81. }
      destruct (Z.eq_dec (childIndex x y z) 0) as [E|E].
      * rewrite E, Z.add_0_r in Hb. eapply IH; eassumption.
      * apply BuildTree_kept in Hb as (_ & _ & Hbelow & _).
        exists n2. rewrite Hbelow by lia. auto.
    + cbn [set_nodes nodes_]. eexists. split.
      * apply list_lookup_insert_eq. exact Hlt.
      * cbn [children]. apply length_resize.
Qed.

Lemma BuildTree_in_bounds (n : nat) :
  forall (fuel : nat) (maxDepth i depth : Z) (bb : BoundingBox) (t : Octree),
    maxDepth - depth = Z.of_nat n -> (n < fuel)%nat -> 0 <= i ->
    i + 7 * (maxDepth - depth) < Z.of_nat (length (nodes_ t)) ->
    exists t', BuildTree fuel maxDepth i depth bb t = Done t'.
Proof.
  induction n as [|n IH]; intros fuel maxDepth i depth bb t Hd Hf Hi Hb;
    (destruct fuel as [|fuel]; [lia|]);
    (destruct (lookup_lt_is_Some_2 (nodes_ t) (Z.to_nat i)) as [node Hn]; [lia|]);
    rewrite (BuildTree_step _ _ _ _ _ _ _ Hi Hn).
  - replace (depth =? maxDepth) with true by (symmetry; apply Z.eqb_eq; lia). eauto.
  - replace (depth =? maxDepth) with false by (symmetry; apply Z.eqb_neq; lia).
    pose proof (lookup_lt_Some _ _ _ Hn) as Hlt.
    set (Inv := fun s : Octree =>
                  length (nodes_ s) = length (nodes_ t) /\
                  exists node', nodes_ s !! Z.to_nat i = Some node'
                                /\ length (children node') = 8%nat).
    destruct (for_each_total Inv (build_child fuel maxDepth i depth bb) octants)
      with (s := set_nodes t
                   (<[Z.to_nat i :=
                        mkOctreeNode bb (resize 8 node0 (children node)) (objects node)
                          (nodeIndex node)]> (nodes_ t)))
      as (s' & Hs' & _); [| |eauto].
    + intros [[x y] z] s Hoct (Hlen & n1 & Hn1 & H81). unfold build_child.
      pose proof (octants_range _ _ _ Hoct) as Hk.
      destruct (write_child_box_ok s i (childIndex x y z)
                  (childBoundingBox (box_center bb) (box_extents bb) x y z) n1)
        as (s1 & Hw & Hlen1 & n2 & Hn2 & H82); [lia | exact Hn1 | lia | lia |].
      rewrite Hw. cbn [bind].
      destruct (IH fuel maxDepth (i + childIndex x y z) (depth + 1)
                  (childBoundingBox (box_center bb) (box_extents bb) x y z) s1)
        as (s2 & Hs2); [lia | lia | lia | lia |].
      exists s2. split; [exact Hs2|].
      pose proof (BuildTree_kept _ _ _ _ _ _ _ Hs2) as (Hlen2 & _ & Hbelow & _).
      split; [congruence|].
      destruct (Z.eq_dec (childIndex x y z) 0) as [E|E].
      * rewrite E, Z.add_0_r in Hs2.
        eapply BuildTree_keeps_eight; [exact Hs2 | exact Hn2 | lia].
      * exists n2. rewrite Hbelow by lia. split; [exact Hn2 | lia].
    + split; cbn [set_nodes nodes_]; [apply length_insert|].
      eexists. split; [apply list_lookup_insert_eq; exact Hlt|].
      cbn [children]. apply length_resize.
Qed.

Lemma BuildTree_Done_bounds (fuel : nat) (maxDepth : Z) :
  forall (i depth : Z) (bb : BoundingBox) (t t' : Octree),
    BuildTree fuel maxDepth i depth bb t = Done t' ->
    0 <= i /\ depth <= maxDepth /\
    i + 7 * (maxDepth - depth) < Z.of_nat (length (nodes_ t)).
Proof.
  induction fuel as [|fuel IH]; intros i depth bb t t' H; [discriminate|].
  destruct (vec_at_cases (nodes_ t) i) as [[node Hn]|Hu].
  2:{ cbn [BuildTree] in H. rewrite Hu in H. discriminate. }
  apply vec_at_Done in Hn as [Hi Hn].
  pose proof (lookup_lt_Some _ _ _ Hn) as Hlt.
  rewrite (BuildTree_step _ _ _ _ _ _ _ Hi Hn) in H.
  destruct (Z.eqb_spec depth maxDepth) as [->|Hne]; [lia|].
  destruct (for_each_Done_elem (fun s => length (nodes_ s) = length (nodes_ t))
              (build_child fuel maxDepth i depth bb) octants)
    with (s := set_nodes t
                 (<[Z.to_nat i :=
                      mkOctreeNode bb (resize 8 node0 (children node)) (objects node)
                        (nodeIndex node)]> (nodes_ t)))
         (s' := t') (a := (1, 1, 1))
    as (u & u' & Hu & Hb).
  - intros [[x y] z] s s' _ Hs Hb. unfold build_child in Hb.
    apply bind_Done in Hb as (s1 & Hw & Hb).
    apply write_child_box_frame in Hw as [Hl1 _]. apply BuildTree_frame in Hb as [Hl2 _].
    congruence.
  - cbn [set_nodes nodes_]. apply length_insert.
  - exact H.
  - rewrite octants_eq. do 7 right. left.
  - unfold build_child in Hb. apply bind_Done in Hb as (u1 & Hw & Hb).
    apply write_child_box_frame in Hw as [Hl1 _].
    apply IH in Hb as (_ & Hd & Hbound). unfold childIndex in Hbound. lia.
Qed.

(** Past the leaf depth the recursion on child 0 has no end. *)
Lemma BuildTree_past_leaf_depth (fuel : nat) (maxDepth : Z) :
  forall (i depth : Z) (bb : BoundingBox) (t : Octree),
    maxDepth < depth -> 0 <= i -> (Z.to_nat i < length (nodes_ t))%nat ->
    BuildTree fuel maxDepth i depth bb t = OutOfFuel.
Proof.
  induction fuel as [|fuel IH]; intros i depth bb t Hd Hi Hlt; [reflexivity|].
  destruct (lookup_lt_is_Some_2 _ _ Hlt) as [node Hn].
  rewrite (BuildTree_step _ _ _ _ _ _ _ Hi Hn).
  replace (depth =? maxDepth) with false by (symmetry; apply Z.eqb_neq; lia).
  rewrite octants_eq. cbn [for_each build_child].
  edestruct (write_child_box_ok
               (set_nodes t
                  (<[Z.to_nat i :=
                       mkOctreeNode bb (resize 8 node0 (children node)) (objects node)
                         (nodeIndex node)]> (nodes_ t)))
               i (childIndex 0 0 0)
               (childBoundingBox (box_center bb) (box_extents bb) 0 0 0))
    as (s1 & Hw & Hlen1 & _).
  - exact Hi.
  - cbn [set_nodes nodes_]. apply list_lookup_insert_eq. exact Hlt.
  - unfold childIndex. lia.
  - cbn [children]. rewrite length_resize. unfold childIndex. simpl. lia.
  - rewrite Hw. cbn [bind]. change (childIndex 0 0 0) with 0. rewrite Z.add_0_r.
    rewrite IH; [reflexivity | lia | exact Hi |].
    rewrite Hlen1. cbn [set_nodes nodes_]. rewrite length_insert. exact Hlt.
Qed.


(** ** What the visible list holds *)

Lemma collect_Done_elem {A : Type} (f : A -> outcome (list Z)) (l : list A) (r : list Z)
  (a : A) :
  collect f l = Done r -> a ∈ l ->
  exists seg pre post, f a = Done seg /\ r = pre ++ seg ++ post.
Proof.
  revert r. induction l as [|b l IH]; intros r H Ha; [inversion Ha|].
  simpl in H. apply bind_Done in H as (seg & Hseg & H).
  apply bind_Done in H as (rest & Hrest & [= <-]).
  apply elem_of_cons in Ha as [->|Ha].
  - exists seg, [], rest. auto.
  - destruct (IH _ Hrest Ha) as (seg' & pre & post & Hf & ->).
    exists seg', (seg ++ pre), post. rewrite <- app_assoc. auto.
Qed.

Lemma visit_head (ns : list OctreeNode) (planes : list vec4) (fuel : nat) (i : Z)
  (l : list Z) :
  visit fuel ns planes i = Done l -> passes ns planes i -> exists l', l = i :: l'.
Proof.
  intros H (node & Hi & Hn & Hp). destruct fuel as [|fuel]; [discriminate|].
  cbn [visit] in H. apply bind_Done in H as (node' & Hn' & H).
  apply vec_at_Done in Hn' as [_ Hn']. rewrite Hn in Hn'. injection Hn' as <-.
  rewrite Hp in H. apply bind_Done in H as (r & _ & [= <-]). eauto.
Qed.

(** A listed node brings along each of its children that passes the test. *)
Lemma visit_child_listed (ns : list OctreeNode) (planes : list vec4) (fuel : nat) :
  forall (i : Z) (l : list Z) (n m : Z),
    visit fuel ns planes i = Done l -> n ∈ l ->
    child_of ns n m -> passes ns planes m -> m ∈ l.
Proof.
  induction fuel as [|fuel IH]; intros i l n m H Hn Hc Hp; [discriminate|].
  cbn [visit] in H. apply bind_Done in H as (node & Hnode & H).
  apply vec_at_Done in Hnode as [Hi Hnode].
  destruct (IntersectsFrustum (boundingBox node) planes).
  2:{ injection H as <-. inversion Hn. }
  apply bind_Done in H as (r & Hr & [= <-]).
  apply elem_of_cons in Hn as [->|Hn].
  - destruct Hc as (node' & c & _ & Hnode' & Hcin & <-).
    rewrite Hnode in Hnode'. injection Hnode' as <-.
    destruct (collect_Done_elem _ _ _ _ Hr Hcin) as (seg & pre & post & Hseg & ->).
    destruct (visit_head _ _ _ _ _ Hseg Hp) as [l' ->].
    right. apply elem_of_app. right. left.
  - destruct (collect_elem_split _ _ _ _ Hr Hn) as (c & seg & pre & post & _ & Hseg & Hnseg & ->).
    right. apply elem_of_app. right. apply elem_of_app. left.
    eapply IH; eassumption.
Qed.

Lemma vis_path_listed (ns : list OctreeNode) (planes : list vec4) (fuel : nat)
  (l : list Z) (d : Z) :
  visit fuel ns planes 0 = Done l -> vis_path ns planes 0 d -> d ∈ l.
Proof.
  intros H Hv. induction Hv as [Hp|n m _ IH Hc Hp].
  - destruct (visit_head _ _ _ _ _ H Hp) as [l' ->]. left.
  - eapply visit_child_listed; eassumption.
Qed.

(** X12.  What cull lists is exactly what can be reached: when cull returns,
    a node is in the visible list if and only if a path leads to it from
    the root through [children] on which every node, the root and the node
    itself included, passes the test.  In particular every listed index is
    the index of a node of the arena whose own box passes the test. *)
Theorem FrustumCull_lists_reachable (fuel : nat) (planes : list vec4) (t t' : Octree)
  (d : Z) :
  FrustumCull fuel planes t = Done t' ->
  (d ∈ visibleNodes_ t' <-> vis_path (nodes_ t) planes 0 d) /\
  (d ∈ visibleNodes_ t' ->
   0 <= d < Z.of_nat (length (nodes_ t)) /\ passes (nodes_ t) planes d).
Proof.
  intros H. apply FrustumCull_Done in H as (l & Hl & ->). cbn [visibleNodes_].
  assert (Hsound : d ∈ l -> vis_path (nodes_ t) planes 0 d)
    by (intros Hd; eapply visit_vis_path; eassumption).
  split; [split; [exact Hsound | apply (vis_path_listed _ _ _ _ _ Hl)]|].
  intros Hd. apply Hsound, vis_path_passes in Hd. split; [|exact Hd].
  destruct Hd as (node & H0 & Hn & _). apply lookup_lt_Some in Hn. lia.
Qed.

Lemma FrustumCull_lists_reachable_witness :
  (2 ∈ [0; 2] <-> vis_path (nodes_ arena4) diagonal_planes 0 2) /\
  (2 ∈ [0; 2] ->
   0 <= 2 < Z.of_nat (length (nodes_ arena4)) /\ passes (nodes_ arena4) diagonal_planes 2).
Proof.
  apply (FrustumCull_lists_reachable 3 diagonal_planes arena4
           (mkOctree (nodes_ arena4) [0; 2]) 2).
  vm_compute. reflexivity.
Defined.

(** ** More planes, fewer visible nodes *)

Lemma collect_sublist {A : Type} (f g : A -> outcome (list Z)) (l : list A) :
  (forall a r, a ∈ l -> f a = Done r -> exists r', g a = Done r' /\ sublist r' r) ->
  forall r, collect f l = Done r -> exists r', collect g l = Done r' /\ sublist r' r.
Proof.
  induction l as [|a l IH]; intros Hfg r; simpl.
  - intros [= <-]. exists []. split; [reflexivity|constructor].
  - rewrite bind_Done. intros (seg & Hseg & H).
    apply bind_Done in H as (rest & Hrest & [= <-]).
    destruct (Hfg a seg) as (seg' & Hg & Hsub); [left | exact Hseg |].
    destruct (IH (fun b r Hb => Hfg b r (proj2 (elem_of_cons _ _ _) (or_intror Hb))) _ Hrest)
      as (rest' & Hg' & Hsub').
    exists (seg' ++ rest'). rewrite Hg, Hg'. split; [reflexivity|].
    apply sublist_app; assumption.
Qed.

Lemma visit_more_planes (ns : list OctreeNode) (planes more : list vec4) (fuel : nat) :
  forall (i : Z) (l : list Z),
    visit fuel ns planes i = Done l ->
    exists l', visit fuel ns (planes ++ more) i = Done l' /\ sublist l' l.
Proof.
  induction fuel as [|fuel IH]; intros i l H; [discriminate|].
  cbn [visit] in *. destruct (vec_at ns i) as [node| |]; cbn [bind] in *; try discriminate.
  rewrite IntersectsFrustum_app.
  destruct (IntersectsFrustum (boundingBox node) planes); cbn [andb].
  2:{ injection H as <-. exists []. split; [reflexivity|constructor]. }
  apply bind_Done in H as (r & Hr & [= <-]).
  destruct (IntersectsFrustum (boundingBox node) more).
  2:{ exists []. split; [reflexivity | apply sublist_nil_l]. }
  destruct (collect_sublist
              (fun c => visit fuel ns planes (nodeIndex c))
              (fun c => visit fuel ns (planes ++ more) (nodeIndex c))
              (children node)) with (r := r) as (r' & Hr' & Hsub).
  - intros c seg _. apply IH.
  - exact Hr.
  - exists (i :: r'). rewrite Hr'. split; [reflexivity|]. constructor. exact Hsub.
Qed.

(** X13.  More planes, fewer visible nodes: when cull returns for a list of
    planes, it returns (with the same depth of the call stack) for that list
    followed by further planes, and the visible list it leaves then is the
    earlier one with some nodes taken out, in the same order. *)
Theorem FrustumCull_more_planes (fuel : nat) (planes more : list vec4) (t t1 : Octree) :
  FrustumCull fuel planes t = Done t1 ->
  exists t2,
    FrustumCull fuel (planes ++ more) t = Done t2 /\
    sublist (visibleNodes_ t2) (visibleNodes_ t1).
Proof.
  intros H. apply FrustumCull_Done in H as (l & Hl & ->).
  destruct (visit_more_planes _ _ more _ _ _ Hl) as (l' & Hl' & Hsub).
  exists (mkOctree (nodes_ t) l'). split; [|exact Hsub].
  apply FrustumCull_Done. eauto.
Qed.

Lemma FrustumCull_more_planes_witness :
  exists t2,
    FrustumCull 3 ([] ++ diagonal_planes) arena4 = Done t2 /\
    sublist (visibleNodes_ t2) [0; 1; 3; 2].
Proof.
  apply (FrustumCull_more_planes 3 [] diagonal_planes arena4
           (mkOctree (nodes_ arena4) [0; 1; 3; 2])).
  vm_compute. reflexivity.
Defined.

(** ** No node is listed twice *)

Section Trees.

Variable ns : list OctreeNode.
Variable planes : list vec4.
Hypothesis Htree : tree_shaped ns.

Lemma descendant_trans (a b c : Z) :
  descendant ns a b -> descendant ns b c -> descendant ns a c.
Proof.
  intros Hab Hbc. induction Hbc as [c Hc|m c _ IH Hc].
  - eapply descendant_step; eassumption.
  - eapply descendant_step; [exact IH | exact Hc].
Qed.

Lemma reaches_child (a b c : Z) : reaches ns a b -> child_of ns b c -> descendant ns a c.
Proof.
  intros [->|H] Hc; [apply descendant_child, Hc | eapply descendant_step; eassumption].
Qed.

Lemma child_reaches (a b c : Z) : child_of ns a b -> reaches ns b c -> descendant ns a c.
Proof.
  intros Hc [->|H]; [apply descendant_child, Hc|].
  eapply descendant_trans; [apply descendant_child, Hc | exact H].
Qed.

(** The last step of a path into a node starts at its parent. *)
Lemma descendant_through_parent (p a b : Z) :
  child_of ns p a -> descendant ns b a -> reaches ns b p.
Proof.
  destruct Htree as [Huniq _]. intros Hp Hb.
  inversion Hb as [a' Hc|m a' Hbm Hc]; subst.
  - left. eapply Huniq; eassumption.
  - right. rewrite (Huniq _ _ _ Hp Hc). exact Hbm.
Qed.

Lemma root_not_descendant (a : Z) : ~ descendant ns a 0.
Proof.
  destruct Htree as [_ Hroot]. intros H.
  inversion H as [a' Hc|m a' _ Hc]; subst; eapply Hroot, Hc.
Qed.

Lemma acyclic_step (p i : Z) :
  ~ descendant ns p p -> child_of ns p i -> ~ descendant ns i i.
Proof.
  intros Hp Hc Hi. apply Hp.
  eapply child_reaches; [exact Hc|]. eapply descendant_through_parent; eassumption.
Qed.

(** Below the root there is no cycle. *)
Lemma reachable_acyclic (i : Z) : reaches ns 0 i -> ~ descendant ns i i.
Proof.
  intros [<-|H]; [apply root_not_descendant|].
  induction H as [i Hc|p i _ IH Hc].
  - eapply acyclic_step; [apply root_not_descendant | exact Hc].
  - eapply acyclic_step; [exact IH | exact Hc].
Qed.

(** Two nodes from which the same node is reached lie on one path. *)
Lemma ancestors_on_one_path (a b d : Z) :
  descendant ns a d -> descendant ns b d -> a = b \/ descendant ns a b \/ descendant ns b a.
Proof.
  destruct Htree as [Huniq _].
  intros Ha. revert b. induction Ha as [d Hc|m d Ham IH Hc]; intros b Hb.
  - inversion Hb as [d' Hc'|m' d' Hbm Hc']; subst.
    + left. eapply Huniq; eassumption.
    + right. right. rewrite (Huniq _ _ _ Hc Hc'). exact Hbm.
  - inversion Hb as [d' Hc'|m' d' Hbm Hc']; subst.
    + right. left. rewrite (Huniq _ _ _ Hc' Hc). exact Ham.
    + apply IH. rewrite (Huniq _ _ _ Hc Hc'). exact Hbm.
Qed.

(** What is reached from one child of a node is not reached from another. *)
Lemma siblings_disjoint (i a b x : Z) :
  ~ descendant ns i i -> child_of ns i a -> child_of ns i b -> a <> b ->
  reaches ns a x -> reaches ns b x -> False.
Proof.
  intros Hacyc Ha Hb Hab Hax Hbx.
  assert (Hcyc : forall c e, child_of ns i c -> child_of ns i e -> descendant ns c e -> False).
  { intros c e Hc He Hce. apply Hacyc.
    eapply child_reaches; [exact Hc|]. eapply descendant_through_parent; eassumption. }
  destruct Hax as [->|Hax], Hbx as [Hbx|Hbx].
  - congruence.
  - eapply (Hcyc b x); eassumption.
  - subst x. eapply (Hcyc a b); eassumption.
  - destruct (ancestors_on_one_path _ _ _ Hax Hbx) as [E|[H|H]]; [congruence| |].
    + eapply (Hcyc a b); eassumption.
    + eapply (Hcyc b a); eassumption.
Qed.

Lemma vis_path_reaches (r d : Z) : vis_path ns planes r d -> reaches ns r d.
Proof.
  intros H. induction H as [_|n m _ IH Hc _]; [left; reflexivity|].
  right. eapply reaches_child; eassumption.
Qed.

Lemma collect_NoDup {A : Type} (f : A -> outcome (list Z)) (key : A -> Z)
  (R : Z -> Z -> Prop) (l : list A) :
  NoDup (key <$> l) ->
  (forall a seg, a ∈ l -> f a = Done seg -> NoDup seg /\ forall x, x ∈ seg -> R (key a) x) ->
  (forall a b x, a ∈ l -> b ∈ l -> key a <> key b -> R (key a) x -> R (key b) x -> False) ->
  forall r, collect f l = Done r -> NoDup r.
Proof.
  induction l as [|a l IH]; intros Hkeys Hseg Hdis r; simpl.
  - intros [= <-]. constructor.
  - rewrite bind_Done. intros (seg & Hfa & H).
    apply bind_Done in H as (rest & Hrest & [= <-]).
    rewrite fmap_cons in Hkeys. apply NoDup_cons in Hkeys as [Hka Hkeys].
    destruct (Hseg a seg) as [Hnd HR]; [left | exact Hfa |].
    apply NoDup_app. split; [exact Hnd|]. split.
    + intros x Hx Hx'.
      destruct (collect_elem _ _ _ _ Hrest Hx') as (b & seg' & Hb & Hfb & Hxb).
      destruct (Hseg b seg') as [_ HRb]; [right; exact Hb | exact Hfb |].
      eapply (Hdis a b x); [left | right; exact Hb | | apply HR, Hx | apply HRb, Hxb].
      intros E. apply Hka. rewrite E. apply list_elem_of_fmap. eauto.
    + apply IH; [exact Hkeys | |  | exact Hrest].
      * intros b seg' Hb. apply Hseg. right; exact Hb.
      * intros b c x Hb Hc. apply Hdis; right; assumption.
Qed.

Hypothesis Hdistinct : distinct_children ns.

Lemma visit_NoDup (fuel : nat) :
  forall (i : Z) (l : list Z),
    reaches ns 0 i -> visit fuel ns planes i = Done l -> NoDup l.
Proof.
  induction fuel as [|fuel IH]; intros i l Hreach H; [discriminate|].
  cbn [visit] in H. apply bind_Done in H as (node & Hn & H).
  apply vec_at_Done in Hn as [Hi Hn].
  destruct (IntersectsFrustum (boundingBox node) planes).
  2:{ injection H as <-. constructor. }
  apply bind_Done in H as (r & Hr & [= <-]).
  pose proof (reachable_acyclic _ Hreach) as Hacyc.
  assert (Hchild : forall c, c ∈ children node -> child_of ns i (nodeIndex c))
    by (intros c Hc; exists node, c; auto).
  assert (Hsegs : forall c seg, c ∈ children node ->
            visit fuel ns planes (nodeIndex c) = Done seg ->
            NoDup seg /\ forall x, x ∈ seg -> reaches ns (nodeIndex c) x).
  { intros c seg Hc Hseg. split.
    - eapply IH; [|exact Hseg]. right. eapply reaches_child; [exact Hreach|]. auto.
    - intros x Hx. eapply vis_path_reaches, visit_vis_path; eassumption. }
  apply NoDup_cons. split.
  - intros Hin.
    destruct (collect_elem _ _ _ _ Hr Hin) as (c & seg & Hc & Hseg & Hiseg).
    apply Hacyc. eapply child_reaches; [apply Hchild, Hc|].
    eapply (proj2 (Hsegs c seg Hc Hseg)), Hiseg.
  - eapply (collect_NoDup _ nodeIndex (reaches ns)); [| |  | exact Hr].
    + eapply Hdistinct, Hn.
    + exact Hsegs.
    + intros a b x Ha Hb Hab. eapply siblings_disjoint; eauto.
Qed.

End Trees.

Lemma arena4_distinct_children : distinct_children (nodes_ arena4).
Proof.
  intros i node Hn.
  assert (i < 4)%nat as Hlt by (apply lookup_lt_Some in Hn; exact Hn).
  destruct i as [|[|[|[|i]]]]; [| | | |lia]; injection Hn as <-; cbn;
    repeat (apply NoDup_cons; split;
            [intros H; repeat (apply elem_of_cons in H as [H|H]; [discriminate H|]);
             inversion H|]);
    apply NoDup_nil_2.
Qed.

(** X14.  In an arena of tree shape in which no node names the same node
    twice among its children, cull lists no node twice. *)
Theorem FrustumCull_lists_once (fuel : nat) (planes : list vec4) (t t' : Octree) :
  tree_shaped (nodes_ t) -> distinct_children (nodes_ t) ->
  FrustumCull fuel planes t = Done t' ->
  NoDup (visibleNodes_ t').
Proof.
  intros Htree Hdist H. apply FrustumCull_Done in H as (l & Hl & ->).
  eapply visit_NoDup; [exact Htree | exact Hdist | left; reflexivity | exact Hl].
Qed.

Lemma FrustumCull_lists_once_witness :
  (tree_shaped (nodes_ arena4) /\ distinct_children (nodes_ arena4)) /\
  NoDup [0; 1; 3; 2].
Proof.
  split; [split; [exact arena4_tree_shaped | exact arena4_distinct_children]|].
  apply (FrustumCull_lists_once 3 [] arena4 (mkOctree (nodes_ arena4) [0; 1; 3; 2])
           arena4_tree_shaped arena4_distinct_children).
  vm_compute. reflexivity.
Defined.

(** ** A plane without a normal *)

(** X15.  A plane whose normal is zero does not look at the box: it rejects
    every box when its [w] is positive and no box otherwise. *)
Theorem IntersectsFrustum_zero_normal (bb : BoundingBox) (w : Q) :
  IntersectsFrustum bb [Vec4 0 0 0 w] = negb (Qltb 0 w).
Proof.
  assert (H : plane_out bb (Vec4 0 0 0 w) = 6 <-> (0 < w)%Q).
  { rewrite plane_out_6. cbn [px py pz pw].
    assert (E : forall m : Q, (0 * m + w == w)%Q) by (intros; ring).
    rewrite !E. tauto. }
  cbn [IntersectsFrustum].
  destruct (Z.eqb_spec (plane_out bb (Vec4 0 0 0 w)) 6) as [E|E],
           (Qltb 0 w) eqn:Hw; try reflexivity.
  - apply H, Qltb_lt in E. congruence.
  - apply Qltb_lt, H in Hw. contradiction.
Qed.

(** ** When [BuildTree] does not return *)

Lemma for_each_not_OutOfFuel {A S : Type} (body : A -> S -> outcome S) (l : list A) :
  (forall a s, a ∈ l -> body a s <> OutOfFuel) ->
  forall s, for_each body l s <> OutOfFuel.
Proof.
  induction l as [|a l IH]; intros Hbody s; simpl; [discriminate|].
  destruct (body a s) as [s'| |] eqn:E; simpl.
  - apply IH. intros b u Hb. apply Hbody. right; exact Hb.
  - discriminate.
  - exfalso. eapply Hbody; [left | exact E].
Qed.

Lemma write_child_box_not_OutOfFuel (t : Octree) (i c : Z) (bb : BoundingBox) :
  write_child_box t i c bb <> OutOfFuel.
Proof.
  unfold write_child_box, vec_set.
  destruct (vec_at_cases (nodes_ t) i) as [[node ->]| ->]; simpl; [|discriminate].
  destruct (vec_at_cases (children node) c) as [[child ->]| ->]; simpl; discriminate.
Qed.

(** A call stack of [maxDepth - depth + 1] calls is all that [BuildTree]
    needs. *)
Lemma BuildTree_enough_fuel (n : nat) :
  forall (fuel : nat) (maxDepth i depth : Z) (bb : BoundingBox) (t : Octree),
    maxDepth - depth = Z.of_nat n -> (n < fuel)%nat ->
    BuildTree fuel maxDepth i depth bb t <> OutOfFuel.
Proof.
  induction n as [|n IH]; intros fuel maxDepth i depth bb t Hd Hf;
    (destruct fuel as [|fuel]; [lia|]);
    (destruct (vec_at_cases (nodes_ t) i) as [[node Hn]|Hu];
     [|cbn [BuildTree]; rewrite Hu; discriminate]);
    apply vec_at_Done in Hn as [Hi Hn];
    rewrite (BuildTree_step _ _ _ _ _ _ _ Hi Hn).
  - replace (depth =? maxDepth) with true by (symmetry; apply Z.eqb_eq; lia). discriminate.
  - replace (depth =? maxDepth) with false by (symmetry; apply Z.eqb_neq; lia).
    apply for_each_not_OutOfFuel. intros [[x y] z] s _. unfold build_child.
    destruct (write_child_box s i (childIndex x y z) _) as [s1| |] eqn:Hw; cbn [bind].
    + apply IH; lia.
    + discriminate.
    + exfalso. eapply write_child_box_not_OutOfFuel, Hw.
Qed.

(** X8.  The exact reach of [BuildTree]: a call on node [nodeIndex] at
    depth [depth] returns, for some depth of the call stack, exactly when
    [nodeIndex >= 0], [depth <= maxDepth] and [nodes_] has more than
    [nodeIndex + 7 * (maxDepth - depth)] elements.  When [nodeIndex >= 0]
    and [depth <= maxDepth] but [nodes_] has no more than that many
    elements, every call stack that allows [maxDepth - depth + 1] nested
    calls ends in an access outside a vector. *)
Theorem BuildTree_returns_iff (maxDepth i depth : Z) (bb : BoundingBox) (t : Octree) :
  ((exists fuel t', BuildTree fuel maxDepth i depth bb t = Done t') <->
   0 <= i /\ depth <= maxDepth /\
   i + 7 * (maxDepth - depth) < Z.of_nat (length (nodes_ t))) /\
  (0 <= i -> depth <= maxDepth ->
   Z.of_nat (length (nodes_ t)) <= i + 7 * (maxDepth - depth) ->
   i + 7 * (maxDepth - depth) <= 2 ^ 31 - 1 ->
   forall fuel, (Z.to_nat (maxDepth - depth) < fuel)%nat ->
                BuildTree fuel maxDepth i depth bb t = Undefined).
Proof.
  split; [split|].
  - intros (fuel & t' & H). eapply BuildTree_Done_bounds, H.
  - intros (Hi & Hd & Hb).
    destruct (BuildTree_in_bounds (Z.to_nat (maxDepth - depth))
                (S (Z.to_nat (maxDepth - depth))) maxDepth i depth bb t)
      as [t' H]; [lia | lia | lia | lia |]. eauto.
  - intros Hi Hd Hb _ fuel Hf.
    destruct (BuildTree fuel maxDepth i depth bb t) as [t'| |] eqn:E; [|reflexivity|].
    + apply BuildTree_Done_bounds in E. lia.
    + exfalso. eapply (BuildTree_enough_fuel (Z.to_nat (maxDepth - depth)));
        [| exact Hf | exact E]. lia.
Qed.

Lemma BuildTree_returns_iff_witness :
  (exists fuel t', BuildTree fuel 2 0 0 unit_box (blank_arena 15) = Done t') /\
  ~ (exists fuel t', BuildTree fuel 2 0 0 unit_box (blank_arena 14) = Done t') /\
  BuildTree 3 2 0 0 unit_box (blank_arena 14) = Undefined.
Proof.
  split; [|split].
  - apply (BuildTree_returns_iff 2 0 0 unit_box (blank_arena 15)). simpl. lia.
  - intros H. apply (BuildTree_returns_iff 2 0 0 unit_box (blank_arena 14)) in H.
    simpl in H. lia.
  - apply (BuildTree_returns_iff 2 0 0 unit_box (blank_arena 14)); simpl; lia.
Defined.

(** X9.  With a non-empty vertex list and a negative maxDepth the
    constructor does not return and does not leave the bounds of [nodes_]
    either: for every call stack of at most [2^31 - 1] nested calls (so that
    [depth + 1] stays an [int]), [BuildTree] is still calling itself on
    child 0 of the root when the stack ends. *)
Theorem Octree_ctor_negative_depth_recurses (fuel : nat) (vertices : list vec3)
  (maxDepth : Z) :
  vertices <> [] -> - 2 ^ 31 <= maxDepth < 0 -> Z.of_nat fuel <= 2 ^ 31 - 1 ->
  Octree_ctor fuel vertices maxDepth = OutOfFuel.
Proof.
  intros Hv Hd _. destruct vertices as [|v0 rest]; [congruence|].
  rewrite Octree_ctor_cons. apply BuildTree_past_leaf_depth; [lia | lia | simpl; lia].
Qed.

Lemma Octree_ctor_negative_depth_recurses_witness :
  Octree_ctor 100 unit_cube (-3) = OutOfFuel.
Proof.
  apply (Octree_ctor_negative_depth_recurses 100 unit_cube (-3));
    [discriminate | lia | simpl; lia].
Defined.

(** ** The boxes a call of [BuildTree] leaves in a node and its children *)









(** ** Children that all name node 0 *)











